(** * AlpacaBroker: a shallow embedding of [broker_alpaca.py] and
      [broker_errors.py], and the properties of its resilience layer.

    Conventions of the embedding.

    - Python text is a [string] of ASCII characters; [str.lower] maps
      [A-Z] to [a-z] and leaves every other character alone.
    - Python [int] is [Z].  A reading of [time.time()] is a [timestamp]:
      a whole number of microseconds since the epoch, so that [int(...)]
      of a reading truncates to whole seconds.  The [clock] of a world
      moves where the code sleeps; the time a transport call takes is not
      part of the embedding.
    - A Python [float] is a [pyfloat].  What [float(...)] makes of a text
      or of a number, rounding and overflow included, is a parameter of
      the client ([float_reader]); the statements hold for every reader.
    - A [dict] with text keys is a [gmap string _]; [requests]' header
      dictionary is keyed by the lower-cased header name, which is how its
      case-insensitive lookup is implemented.
    - A Python call either returns or raises: [result].  Code that touches
      the broker object, the clock or the network is a function of the
      [World] it runs in and gives back the [World] it leaves.
    - The network is an oracle: the outcome of the [k]-th transport call. *)

From Stdlib Require Import ZArith Lia String Ascii List.
From stdpp Require Import base strings gmap list numbers.
Import ListNotations.

Open Scope string_scope.
Open Scope Z_scope.

(** ** Python text *)

Module PyStr.

Definition is_upper (c : ascii) : bool :=
  let n := nat_of_ascii c in (Nat.leb 65 n && Nat.leb n 90)%bool.

Definition lower_char (c : ascii) : ascii :=
  if is_upper c then ascii_of_nat (nat_of_ascii c + 32) else c.

(** [s.lower()] *)
Fixpoint lower (s : string) : string :=
  match s with
  | EmptyString => EmptyString
  | String c s' => String (lower_char c) (lower s')
  end.

(** [needle in hay] for two texts *)
Fixpoint contains (needle hay : string) : bool :=
  (String.prefix needle hay ||
   match hay with
   | EmptyString => false
   | String _ hay' => contains needle hay'
   end)%bool.

(** Truthiness of a text: only the empty text is false. *)
Definition truthy (s : string) : bool :=
  match s with EmptyString => false | _ => true end.

(** The characters [int] skips around a literal: tab, line feed, vertical
    tab, form feed, carriage return and the space. *)
Definition is_space (c : ascii) : bool :=
  let n := nat_of_ascii c in
  ((Nat.leb 9 n && Nat.leb n 13) || Nat.eqb n 32)%bool.

Definition is_digit (c : ascii) : bool :=
  let n := nat_of_ascii c in (Nat.leb 48 n && Nat.leb n 57)%bool.

Definition digit_val (c : ascii) : Z := Z.of_nat (nat_of_ascii c) - 48.

Fixpoint lstrip (l : list ascii) : list ascii :=
  match l with
  | c :: l' => if is_space c then lstrip l' else l
  | [] => []
  end.

Definition strip (l : list ascii) : list ascii :=
  rev (lstrip (rev (lstrip l))).

(** The digits of a decimal literal; single underscores may separate
    digits.  [after_digit] tells whether the previous character was one. *)
Fixpoint int_digits (acc : Z) (after_digit : bool) (l : list ascii) : option Z :=
  match l with
  | [] => if after_digit then Some acc else None
  | c :: l' =>
      if is_digit c then int_digits (10 * acc + digit_val c) true l'
      else if Ascii.eqb c "_"%char
           then (if after_digit then int_digits acc false l' else None)
           else None
  end.

(** The most digits [int] converts from a text: the interpreter's default
    limit ([sys.get_int_max_str_digits()]). *)
Definition max_str_digits : Z := 4300.

(** [int(s)] for a text [s]; [None] stands for [ValueError], which is
    raised for a text that is not a literal and for a literal of more
    than [max_str_digits] digits. *)
Definition to_int (s : string) : option Z :=
  let l := strip (list_ascii_of_string s) in
  if Z.ltb max_str_digits (Z.of_nat (List.length (List.filter is_digit l)))
  then None
  else
    match l with
    | c :: l' =>
        if Ascii.eqb c "-"%char then option_map Z.opp (int_digits 0 false l')
        else if Ascii.eqb c "+"%char then int_digits 0 false l'
        else int_digits 0 false (c :: l')
    | [] => None
    end.

End PyStr.

(** ** JSON documents, as [response.json()] returns them

    [JObj] lists the entries of a dict, each key once. *)

#[warnings="-register-all"]
Inductive json : Type :=
| JNull
| JBool (b : bool)
| JNum (q : Qcanon.Qc)
| JStr (s : string)
| JArr (items : list json)
| JObj (fields : list (string * json)).

(** [d.get(key)] on the entries of a dict *)
Fixpoint dict_get (key : string) (fields : list (string * json)) : option json :=
  match fields with
  | [] => None
  | (k, v) :: rest => if String.eqb k key then Some v else dict_get key rest
  end.

(** ** HTTP responses and transport outcomes *)

Record response : Type := mkResponse {
  status_code : Z;
  (** what [response.json()] gives; [None] when it raises *)
  resp_json : option json;
  (** [response.headers], keyed by lower-cased name *)
  resp_headers : gmap string string;
  (** [str(error)] of the [HTTPError] that [raise_for_status] builds *)
  error_str : string
}.

(** What [requests] raises when no response comes back. *)
Inductive transport_failure : Type :=
| Timeout
| ConnectionError
| OtherRequestException.

Inductive outcome : Type :=
| Responded (r : response)
| Failed (f : transport_failure).

(** [response.raise_for_status()] raises exactly for 4xx and 5xx. *)
Definition is_http_error (r : response) : bool :=
  (Z.leb 400 (status_code r) && Z.ltb (status_code r) 600)%bool.

(** ** The exception classes of [broker_errors.py] *)

Inductive exc_class : Type :=
| BrokerError
| BrokerAuthenticationError
| BrokerRateLimitError
| BrokerAPIError
| BrokerNetworkError
| OrderValidationError
(* exceptions that are not broker errors *)
| AttributeError
| TypeError
| ValueError
| OverflowError
| JSONDecodeError
| RequestException.

#[global] Instance exc_class_eq_dec : EqDecision exc_class.
Proof. solve_decision. Defined.

(** The nearest ancestors of a class among the classes above: for a broker
    error the class named in its [class C(Base)] header; the
    [JSONDecodeError] of [requests] descends from its [RequestException]
    and from [ValueError]. *)
Definition base_classes (c : exc_class) : list exc_class :=
  match c with
  | BrokerAuthenticationError => [BrokerError]
  | BrokerRateLimitError => [BrokerError]
  | BrokerAPIError => [BrokerError]
  | BrokerNetworkError => [BrokerError]
  | OrderValidationError => [BrokerAPIError]
  | JSONDecodeError => [RequestException; ValueError]
  | _ => []
  end.

Fixpoint issubclass_upto (depth : nat) (c d : exc_class) : bool :=
  (bool_decide (c = d) ||
   match depth with
   | S depth' => existsb (fun b => issubclass_upto depth' b d) (base_classes c)
   | O => false
   end)%bool.

(** [issubclass(c, d)]; no chain of bases is longer than two. *)
Definition issubclass (c d : exc_class) : bool := issubclass_upto 2 c d.

(** An exception object: the attributes set by [BrokerError.__init__] and
    [BrokerRateLimitError.__init__], and the [__cause__] of [raise from]. *)
Record exc : Type := mkExc {
  exc_cls : exc_class;
  exc_message : json;
  exc_status : option Z;
  exc_response : option response;
  exc_retry_after : option Z;
  exc_cause : option transport_failure
}.

Definition broker_exc (c : exc_class) (message : json) (status : Z)
    (r : response) : exc :=
  mkExc c message (Some status) (Some r) None None.

Definition rate_limit_exc (message : json) (status : Z) (r : response)
    (retry_after : Z) : exc :=
  mkExc BrokerRateLimitError message (Some status) (Some r) (Some retry_after) None.

Definition network_exc (message : string) (cause : transport_failure) : exc :=
  mkExc BrokerNetworkError (JStr message) None None None (Some cause).

(** An exception raised by the interpreter or a library, not by this code. *)
Definition foreign_exc (c : exc_class) : exc :=
  mkExc c JNull None None None None.

(** [isinstance(e, c)], which is what an [except c:] clause tests. *)
Definition isinstance (e : exc) (c : exc_class) : bool :=
  issubclass (exc_cls e) c.

(** ** Time *)

Definition timestamp : Type := Z.

Definition seconds (n : Z) : timestamp := n * 1000000.

(** [int(t)] for a clock reading [t] *)
Definition int_of_time (t : timestamp) : Z := Z.quot t 1000000.

(** ** [_handle_http_error] *)

Module Classifier.

(** Lines 268-274: the message is the [message] entry of the body when the
    body is a dict, and [str(error)] when parsing the body or calling
    [.get] on it fails. *)
Definition message_of (r : response) : json :=
  match resp_json r with
  | Some (JObj fields) =>
      match dict_get "message" fields with
      | Some m => m
      | None => JStr (error_str r)
      end
  | _ => JStr (error_str r)
  end.

(** Lines 279-280. *)
Definition retry_after_of (r : response) (now : timestamp) : option Z :=
  match resp_headers r !! "x-ratelimit-reset" with
  | Some h =>
      if PyStr.truthy h
      then option_map (fun reset => reset - int_of_time now) (PyStr.to_int h)
      else Some 60
  | None => Some 60
  end.

(** [needle in message.lower()]; [None] is the [AttributeError] of a message
    that has no [lower]. *)
Definition in_lower (needle : string) (message : json) : option bool :=
  match message with
  | JStr s => Some (PyStr.contains needle (PyStr.lower s))
  | _ => None
  end.

Definition is_text (s : string) (j : json) : bool :=
  match j with JStr s' => String.eqb s s' | _ => false end.

(** [needle in message]; [None] is the [TypeError] of a message that is
    not a container. *)
Definition py_in (needle : string) (message : json) : option bool :=
  match message with
  | JStr s => Some (PyStr.contains needle s)
  | JArr items => Some (existsb (is_text needle) items)
  | JObj fields => Some (existsb (fun kv => String.eqb needle (fst kv)) fields)
  | _ => None
  end.

(** The function raises on every path; its value here is what it raises. *)
Definition _handle_http_error (r : response) (now : timestamp) : exc :=
  let status := status_code r in
  let message := message_of r in
  if status =? 401 then broker_exc BrokerAuthenticationError message status r
  else if status =? 429 then
    match retry_after_of r now with
    | Some retry_after => rate_limit_exc message status r retry_after
    | None => foreign_exc ValueError
    end
  else if status =? 403 then
    match in_lower "insufficient" message with
    | None => foreign_exc AttributeError
    | Some true => broker_exc OrderValidationError message status r
    | Some false =>
        match in_lower "trading halted" message with
        | None => foreign_exc AttributeError
        | Some true => broker_exc OrderValidationError message status r
        | Some false => broker_exc BrokerAPIError message status r
        end
    end
  else if status =? 404 then
    match py_in "asset not found" message with
    | None => foreign_exc TypeError
    | Some true => broker_exc OrderValidationError message status r
    | Some false => broker_exc BrokerAPIError message status r
    end
  else if status =? 400 then broker_exc BrokerAPIError message status r
  else if status >=? 500 then broker_exc BrokerAPIError message status r
  else broker_exc BrokerAPIError message status r.

End Classifier.

(** ** The world a call runs in *)

Inductive result (A : Type) : Type :=
| Returned (a : A)
| Raised (e : exc).

Arguments Returned {A} a.
Arguments Raised {A} e.

(** The attributes of an [AlpacaBroker] object that the methods read or
    write; [api_key] and [secret_key] are stored by [__init__] and never
    read, and [base_url] never changes. *)
Record Broker : Type := mkBroker {
  access_token : option string;
  refresh_token : option string;
  token_expires_at : option timestamp;
  headers : gmap string string
}.

Definition base_url : string := "https://paper-api.alpaca.markets/v2".

(** A value stored in an order payload. *)
Inductive pyval : Type :=
| PStr (s : string)
| PFloat (q : Qcanon.Qc).

Inductive http_method : Type := GET | POST | DELETE.

(** The arguments of one [requests.get] / [post] / [delete] call. *)
Record request : Type := mkRequest {
  req_method : http_method;
  req_url : string;
  req_params : gmap string Z;
  req_json : option (gmap string pyval);
  req_headers : gmap string string
}.

(** What a run does that can be observed from outside, oldest first. *)
Inductive event : Type :=
| EvRequest (q : request)
| EvSleep (secs : Z)
| EvRefresh              (* a call of [refresh_access_token] *)
| EvYield (page : json). (* a page handed out by the paginator *)

Record World : Type := mkWorld {
  broker : Broker;
  clock : timestamp;
  sent : nat;             (* transport calls made so far *)
  trace : list event
}.

Definition M (A : Type) : Type := World -> result A * World.

Definition ret {A} (a : A) : M A := fun w => (Returned a, w).

Definition raise {A} (e : exc) : M A := fun w => (Raised e, w).

Definition bind {A B} (m : M A) (k : A -> M B) : M B :=
  fun w =>
    match m w with
    | (Returned a, w') => k a w'
    | (Raised e, w') => (Raised e, w')
    end.

Notation "'do' x <- m ; k" := (bind m (fun x => k))
  (at level 10, x name, m at level 100, k at level 200).

(** [try: m / except cls: handler] *)
Definition try_except {A} (m : M A) (cls : exc_class) (handler : exc -> M A) : M A :=
  fun w =>
    match m w with
    | (Returned a, w') => (Returned a, w')
    | (Raised e, w') =>
        if isinstance e cls then handler e w' else (Raised e, w')
    end.

Definition log (ev : event) (w : World) : World :=
  mkWorld (broker w) (clock w) (sent w) (trace w ++ [ev]).

Definition set_broker (b : Broker) (w : World) : World :=
  mkWorld b (clock w) (sent w) (trace w).

(** [time.sleep(secs)], for [secs] that is not negative *)
Definition sleep (secs : Z) : M unit :=
  fun w =>
    (Returned tt,
     mkWorld (broker w) (clock w + seconds secs) (sent w) (trace w ++ [EvSleep secs])).

(** Truthiness of an attribute that holds [None] or a text. *)
Definition truthy_text (o : option string) : bool :=
  match o with Some s => PyStr.truthy s | None => false end.

(** Truthiness of an attribute that holds [None] or a number. *)
Definition truthy_time (o : option timestamp) : bool :=
  match o with Some t => negb (t =? 0) | None => false end.

(** A Python [float]: a finite number, an infinity or a not-a-number. *)
Inductive pyfloat : Type :=
| FNum (q : Qcanon.Qc)
| FInf (negative : bool)
| FNan.

(** What [float] makes of a text and of a number is taken as given, the
    rounding included: [float_of_text] is [None] for a text that [float]
    rejects with [ValueError], [float_of_number] is [None] for a number
    too large for a float, which [float] rejects with [OverflowError]. *)
Record float_reader : Type := mkFloatReader {
  float_of_text : string -> option pyfloat;
  float_of_number : Qcanon.Qc -> option pyfloat
}.

Record PositionObj : Type := mkPosition {
  pos_symbol : json;
  pos_qty : pyfloat;
  pos_market_value : pyfloat;
  pos_unrealized_pl : pyfloat
}.

Record AssetObj : Type := mkAsset {
  asset_symbol : json;
  asset_exchange : json;
  asset_tradable : json;
  asset_marginable : json;
  asset_fractionable : json
}.

Record OrderObj : Type := mkOrder {
  order_id : json;
  order_symbol : json;
  order_qty : pyfloat;
  order_status : json;
  order_type : json;
  order_side : json;
  order_time_in_force : json;
  order_limit_price : json;
  order_filled_qty : pyfloat;
  order_filled_avg_price : json
}.

Record OrderStatusObj : Type := mkOrderStatus {
  os_id : json;
  os_symbol : json;
  os_status : json;
  os_filled_qty : pyfloat;
  os_filled_avg_price : json
}.

(** The arguments of [place_order]; [None] is the default of an optional
    parameter. *)
Record order_args : Type := mkOrderArgs {
  arg_symbol : string;
  arg_qty : Qcanon.Qc;
  arg_side : string;
  arg_type : string;
  arg_time_in_force : string;
  arg_limit_price : option Qcanon.Qc;
  arg_notional : option Qcanon.Qc
}.

(** ** [AlpacaBroker] *)

Section Client.

(** The outcome of the [k]-th transport call of the run. *)
Variable transport : nat -> outcome.

Variable read_float : float_reader.

(** *** Token management (lines 27-53) *)

Definition authenticate (auth_code : string) : M bool :=
  fun w =>
    let b := broker w in
    (Returned true,
     set_broker
       (mkBroker (Some ("access_token_" ++ auth_code))
                 (Some ("refresh_token_" ++ auth_code))
                 (Some (clock w + seconds 3600))
                 (headers b)) w).

Definition refresh_access_token : M bool :=
  fun w0 =>
    let w := log EvRefresh w0 in
    let b := broker w in
    if negb (truthy_text (refresh_token b))
    then (Raised (mkExc BrokerAuthenticationError (JStr "No refresh token available")
                        None None None None), w)
    else
      (Returned true,
       set_broker
         (mkBroker (Some ("refreshed_token_" ++ default "" (refresh_token b)))
                   (refresh_token b)
                   (Some (clock w + seconds 3600))
                   (headers b)) w).

(** The test of line 29. *)
Definition token_expired (w : World) : bool :=
  (truthy_time (token_expires_at (broker w)) &&
   match token_expires_at (broker w) with
   | Some t => clock w >=? t
   | None => false
   end)%bool.

Definition _refresh_if_needed : M bool :=
  fun w => if token_expired w then refresh_access_token w else (Returned true, w).

Definition refresh_if_needed : M bool := _refresh_if_needed.

(** *** One HTTP exchange

    Every request method has the same frame: call [requests], then
    [raise_for_status], then [response.json()], under the three [except]
    clauses.  [exchange] is that frame up to the parsed body;
    [timeout_message] is the text of the method's [Timeout] clause. *)
Definition exchange (q : request) (timeout_message : string) : M json :=
  fun w0 =>
    let w := mkWorld (broker w0) (clock w0) (S (sent w0)) (trace w0 ++ [EvRequest q]) in
    match transport (sent w0) with
    | Responded r =>
        if is_http_error r
        then (Raised (Classifier._handle_http_error r (clock w)), w)
        else match resp_json r with
             | Some j => (Returned j, w)
             | None => (Raised (foreign_exc JSONDecodeError), w)
             end
    | Failed Timeout => (Raised (network_exc timeout_message Timeout), w)
    | Failed ConnectionError =>
        (Raised (network_exc "Failed to connect" ConnectionError), w)
    | Failed OtherRequestException => (Raised (foreign_exc RequestException), w)
    end.

Definition simple_request (m : http_method) (path : string) (w : World) : request :=
  mkRequest m (base_url ++ path) ∅ None (headers (broker w)).

(** *** Parsing (the [_parse_*] methods) *)

(** [data.get(key, dflt)] where [data] must be a dict. *)
Definition get_or (key : string) (dflt : json) (data : json) : result json :=
  match data with
  | JObj fields => Returned (default dflt (dict_get key fields))
  | _ => Raised (foreign_exc AttributeError)
  end.

(** [float(v)] *)
Definition py_float (v : json) : result pyfloat :=
  match v with
  | JStr s =>
      match float_of_text read_float s with
      | Some x => Returned x
      | None => Raised (foreign_exc ValueError)
      end
  | JNum q =>
      match float_of_number read_float q with
      | Some x => Returned x
      | None => Raised (foreign_exc OverflowError)
      end
  | JBool b => Returned (FNum (Qc_of_Z (if b then 1 else 0)))
  | _ => Raised (foreign_exc TypeError)
  end.

Definition rbind {A B} (r : result A) (k : A -> result B) : result B :=
  match r with
  | Returned a => k a
  | Raised e => Raised e
  end.

Definition get_float (key : string) (data : json) : result pyfloat :=
  rbind (get_or key (JNum (Qc_of_Z 0)) data) py_float.

Definition _parse_position (data : json) : result PositionObj :=
  rbind (get_or "symbol" JNull data) (fun symbol =>
  rbind (get_float "qty" data) (fun qty =>
  rbind (get_float "market_value" data) (fun market_value =>
  rbind (get_float "unrealized_pl" data) (fun unrealized_pl =>
  Returned (mkPosition symbol qty market_value unrealized_pl))))).

Fixpoint parse_each (items : list json) : result (list PositionObj) :=
  match items with
  | [] => Returned []
  | p :: rest =>
      rbind (_parse_position p) (fun o =>
      rbind (parse_each rest) (fun os => Returned (o :: os)))
  end.

(** The comprehension iterates its argument: the items of a list, the keys
    of a dict, the characters of a text; anything else is not iterable. *)
Definition _parse_positions (positions_json : json) : result (list PositionObj) :=
  match positions_json with
  | JArr items => parse_each items
  | JObj fields => parse_each (map (fun kv => JStr (fst kv)) fields)
  | JStr s => parse_each (map (fun c => JStr (String c EmptyString)) (list_ascii_of_string s))
  | _ => Raised (foreign_exc TypeError)
  end.

Definition _parse_asset (data : json) : result AssetObj :=
  rbind (get_or "symbol" JNull data) (fun symbol =>
  rbind (get_or "exchange" JNull data) (fun exchange =>
  rbind (get_or "tradable" (JBool false) data) (fun tradable =>
  rbind (get_or "marginable" (JBool false) data) (fun marginable =>
  rbind (get_or "fractionable" (JBool false) data) (fun fractionable =>
  Returned (mkAsset symbol exchange tradable marginable fractionable)))))).

Definition _parse_order (data : json) : result OrderObj :=
  rbind (get_or "id" JNull data) (fun id =>
  rbind (get_or "symbol" JNull data) (fun symbol =>
  rbind (get_float "qty" data) (fun qty =>
  rbind (get_or "status" JNull data) (fun status =>
  rbind (get_or "type" JNull data) (fun type =>
  rbind (get_or "side" JNull data) (fun side =>
  rbind (get_or "time_in_force" JNull data) (fun time_in_force =>
  rbind (get_or "limit_price" JNull data) (fun limit_price =>
  rbind (get_float "filled_qty" data) (fun filled_qty =>
  rbind (get_or "filled_avg_price" JNull data) (fun filled_avg_price =>
  Returned (mkOrder id symbol qty status type side time_in_force limit_price
                    filled_qty filled_avg_price))))))))))).

Definition _parse_order_status (data : json) : result OrderStatusObj :=
  rbind (get_or "id" JNull data) (fun id =>
  rbind (get_or "symbol" JNull data) (fun symbol =>
  rbind (get_or "status" JNull data) (fun status =>
  rbind (get_float "filled_qty" data) (fun filled_qty =>
  rbind (get_or "filled_avg_price" JNull data) (fun filled_avg_price =>
  Returned (mkOrderStatus id symbol status filled_qty filled_avg_price)))))).

Definition lift {A} (r : result A) : M A := fun w => (r, w).

(** *** The request methods *)

Definition get_account : M json :=
  fun w => exchange (simple_request GET "/account" w) "Request timed out" w.

(** The [for attempt in range(max_retries)] loop of lines 73-80, from
    iteration [attempt] on, with [todo] iterations left.  Falling off the
    end of the loop returns [None]. *)
Fixpoint retry_loop (todo : nat) (attempt max_retries : Z) : M (option json) :=
  match todo with
  | O => ret None
  | S todo' =>
      try_except
        (do account <- get_account; ret (Some account))
        BrokerRateLimitError
        (fun e =>
           if attempt <? max_retries - 1
           then do _ <- sleep (Z.min (2 ^ attempt) 60);
                retry_loop todo' (attempt + 1) max_retries
           else raise e)
  end.

Definition get_account_with_retry (max_retries : Z) : M (option json) :=
  retry_loop (Z.to_nat max_retries) 0 max_retries.

Definition get_positions : M (list PositionObj) :=
  fun w =>
    (do j <- exchange (simple_request GET "/positions" w) "Request timed out";
     lift (_parse_positions j)) w.

Definition transactions_request (batch_size offset : Z) (w : World) : request :=
  mkRequest GET (base_url ++ "/activities")
            (<["offset" := offset]> (<["limit" := batch_size]> ∅))
            None (headers (broker w)).

(** The [while remaining > 0] loop of lines 117-134, driven until the
    generator is exhausted.  [Returned false] means that [fuel] iterations
    were not enough to leave the loop. *)
Fixpoint transactions_loop (fuel : nat) (offset remaining : Z) : M bool :=
  if remaining >? 0 then
    match fuel with
    | O => ret false
    | S fuel' =>
        let batch_size := Z.min remaining 100 in
        fun w =>
          (do page <- exchange (transactions_request batch_size offset w)
                               "Request timed out";
           fun w' =>
             transactions_loop fuel' (offset + batch_size) (remaining - batch_size)
                               (log (EvYield page) w')) w
    end
  else ret true.

Definition get_transactions (limit : Z) : M bool :=
  transactions_loop (Z.to_nat limit) 0 limit.

Definition get_asset (symbol : string) : M AssetObj :=
  fun w =>
    (do j <- exchange (simple_request GET ("/assets/" ++ symbol) w) "Request timed out";
     lift (_parse_asset j)) w.

(** Lines 168-180: the payload of an order. *)
Definition order_payload (a : order_args) : gmap string pyval :=
  let order_data : gmap string pyval :=
    <["time_in_force" := PStr (arg_time_in_force a)]>
      (<["type" := PStr (arg_type a)]>
        (<["side" := PStr (arg_side a)]>
          (<["qty" := PFloat (arg_qty a)]>
            (<["symbol" := PStr (arg_symbol a)]> ∅)))) in
  let order_data :=
    match arg_limit_price a with
    | Some limit_price => <["limit_price" := PFloat limit_price]> order_data
    | None => order_data
    end in
  match arg_notional a with
  | Some notional => delete "qty" (<["notional" := PFloat notional]> order_data)
  | None => order_data
  end.

Definition order_request (a : order_args) (w : World) : request :=
  mkRequest POST (base_url ++ "/orders") ∅ (Some (order_payload a))
            (headers (broker w)).

Definition place_order (a : order_args) : M OrderObj :=
  fun w =>
    (do j <- exchange (order_request a w) "Connection timed out after 30 seconds";
     lift (_parse_order j)) w.

Definition place_order_with_auto_refresh (a : order_args) : M OrderObj :=
  try_except (place_order a) BrokerAuthenticationError
    (fun _ => do _ <- refresh_access_token; place_order a).

Definition get_order_status (order_id : string) : M OrderStatusObj :=
  fun w =>
    (do j <- exchange (simple_request GET ("/orders/" ++ order_id) w) "Request timed out";
     lift (_parse_order_status j)) w.

Definition cancel_order (order_id : string) : M bool :=
  fun w =>
    (do j <- exchange (simple_request DELETE ("/orders/" ++ order_id) w) "Request timed out";
     lift (rbind (get_or "status" JNull j)
                 (fun st => Returned (Classifier.is_text "canceled" st)))) w.

End Client.

(** ** Reading a trace *)

Definition is_refresh (ev : event) : bool :=
  match ev with EvRefresh => true | _ => false end.

Definition refresh_calls (t : list event) : nat :=
  List.length (List.filter is_refresh t).

Fixpoint requests_of (t : list event) : list request :=
  match t with
  | [] => []
  | EvRequest q :: t' => q :: requests_of t'
  | _ :: t' => requests_of t'
  end.

Fixpoint sleeps_of (t : list event) : list Z :=
  match t with
  | [] => []
  | EvSleep n :: t' => n :: sleeps_of t'
  | _ :: t' => sleeps_of t'
  end.

Fixpoint pages_of (t : list event) : list json :=
  match t with
  | [] => []
  | EvYield p :: t' => p :: pages_of t'
  | _ :: t' => pages_of t'
  end.

(** The [(limit, offset)] pair a paginator request carries. *)
Definition page_params (q : request) : option Z * option Z :=
  (req_params q !! "limit", req_params q !! "offset").

(** ** The public request operations, as one type *)

Inductive operation : Type :=
| OpGetAccount
| OpGetPositions
| OpGetTransactions (limit : Z)
| OpGetAsset (symbol : string)
| OpPlaceOrder (a : order_args)
| OpGetOrderStatus (order_id : string)
| OpCancelOrder (order_id : string).

(** The world an operation leaves, whatever it returns or raises. *)
Definition run_operation (transport : nat -> outcome) (read_float : float_reader)
    (op : operation) (w : World) : World :=
  match op with
  | OpGetAccount => snd (get_account transport w)
  | OpGetPositions => snd (get_positions transport read_float w)
  | OpGetTransactions limit => snd (get_transactions transport limit w)
  | OpGetAsset symbol => snd (get_asset transport symbol w)
  | OpPlaceOrder a => snd (place_order transport read_float a w)
  | OpGetOrderStatus order_id => snd (get_order_status transport read_float order_id w)
  | OpCancelOrder order_id => snd (cancel_order transport order_id w)
  end.

(** ** Callers of [refresh_if_needed] running as threads

    A thread runs [_refresh_if_needed]: it evaluates the test of line 29 and
    then, if the test held, calls [refresh_access_token] (line 30).  The
    interpreter may switch threads between the two; nothing in the class
    holds a lock.  A schedule names the thread that takes the next step. *)

Module Threads.

Inductive pc : Type :=
| AtTest                          (* about to evaluate line 29 *)
| AtRefresh                       (* found the token expired, about to run line 30 *)
| Finished (r : result bool).

Definition thread_step (p : pc) (w : World) : pc * World :=
  match p with
  | AtTest =>
      if token_expired w then (AtRefresh, w) else (Finished (Returned true), w)
  | AtRefresh =>
      let '(r, w') := refresh_access_token w in (Finished r, w')
  | Finished r => (Finished r, w)
  end.

Fixpoint run (schedule : list nat) (pcs : list pc) (w : World) : list pc * World :=
  match schedule with
  | [] => (pcs, w)
  | i :: rest =>
      match pcs !! i with
      | Some p =>
          let '(p', w') := thread_step p w in
          run rest (<[i := p']> pcs) w'
      | None => run rest pcs w
      end
  end.

(** [n] callers, none of which has started. *)
Definition spawn (n : nat) : list pc := replicate n AtTest.

Definition finished_true (p : pc) : bool :=
  match p with Finished (Returned true) => true | _ => false end.

(** Thread 0 runs to its end, then thread 1, and so on. *)
Fixpoint one_after_another (first n : nat) : list nat :=
  match n with
  | O => []
  | S n' => first :: first :: one_after_another (S first) n'
  end.

End Threads.

(** ** Sample inputs *)

Module Samples.

(** A 429 whose [x-ratelimit-reset] header holds [reset]. *)
Definition rate_limited_at (reset : string) : response :=
  mkResponse 429 (Some (JObj [("code", JNum (Qc_of_Z 42910000));
                              ("message", JStr "rate limit exceeded")]))
             {[ "x-ratelimit-reset" := reset ]}
             "429 Client Error: Too Many Requests".

(** A 429 without that header. *)
Definition rate_limited : response :=
  mkResponse 429 (Some (JObj [("code", JNum (Qc_of_Z 42910000));
                              ("message", JStr "rate limit exceeded")]))
             ∅ "429 Client Error: Too Many Requests".

(** An error response with the given status and message. *)
Definition refused (status : Z) (message : string) : response :=
  mkResponse status (Some (JObj [("message", JStr message)])) ∅ "Client Error".

Definition ok (j : json) : response := mkResponse 200 (Some j) ∅ "".

Definition account_json : json :=
  JObj [("id", JStr "test_account"); ("status", JStr "ACTIVE"); ("cash", JStr "100000")].

Definition order_json : json :=
  JObj [("id", JStr "order_after_refresh"); ("symbol", JStr "AAPL");
        ("status", JStr "accepted")].

(** The outcomes of a list, in order, and [rest] ever after. *)
Definition replay (outcomes : list outcome) (rest : outcome) : nat -> outcome :=
  fun k => nth k outcomes rest.

(** A reader for runs that convert no text and only numbers that a float
    holds exactly. *)
Definition no_floats : float_reader :=
  mkFloatReader (fun _ => None) (fun q => Some (FNum q)).

Definition fresh_broker : Broker := mkBroker None None None ∅.

(** A broker whose token ran out at [expired_at]. *)
Definition stale_broker (expired_at : timestamp) : Broker :=
  mkBroker (Some "expired_token") (Some "valid_refresh_token") (Some expired_at) ∅.

Definition world_of (b : Broker) (now : timestamp) : World := mkWorld b now 0 [].

Definition market_order : order_args :=
  mkOrderArgs "AAPL" (Qc_of_Z 10) "buy" "market" "day" None None.

Definition both_qty_and_notional : order_args :=
  mkOrderArgs "AAPL" (Qc_of_Z 10) "buy" "market" "day" None (Some (Qc_of_Z 500)).

End Samples.

(** ** What "contains" means *)

(** [needle] occurs in [hay] as a run of consecutive characters. *)
Definition occurs (needle hay : string) : Prop :=
  exists pre post, hay = pre ++ needle ++ post.

(** Some run of [hay] equals [needle] up to the case of its letters. *)
Definition occurs_ignoring_case (needle hay : string) : Prop :=
  exists pre mid post,
    hay = pre ++ mid ++ post /\ PyStr.lower mid = PyStr.lower needle.

(** ** Vocabulary of the statements *)

(** What one HTTP exchange returns or raises, given what the transport did
    and what the clock read. *)
Definition exchange_result (o : outcome) (timeout_message : string)
    (now : timestamp) : result json :=
  match o with
  | Responded r =>
      if is_http_error r then Raised (Classifier._handle_http_error r now)
      else match resp_json r with
           | Some j => Returned j
           | None => Raised (foreign_exc JSONDecodeError)
           end
  | Failed Timeout => Raised (network_exc timeout_message Timeout)
  | Failed ConnectionError => Raised (network_exc "Failed to connect" ConnectionError)
  | Failed OtherRequestException => Raised (foreign_exc RequestException)
  end.

(** The outcome makes [get_account] raise a rate-limit error. *)
Definition rate_limited (o : outcome) : bool :=
  match exchange_result o "Request timed out" 0 with
  | Raised e => isinstance e BrokerRateLimitError
  | Returned _ => false
  end.

(** The body of a response that is not an HTTP error. *)
Definition page_of (o : outcome) : option json :=
  match o with
  | Responded r => if is_http_error r then None else resp_json r
  | Failed _ => None
  end.

(** The back-off before the retry that follows attempt [attempt]. *)
Definition backoff (attempt : nat) : Z := Z.min (2 ^ Z.of_nat attempt) 60.

(** [n] attempts at [q], numbered from [first], with a back-off before each
    retry. *)
Definition retry_events (q : request) (first n : nat) : list event :=
  match n with
  | O => []
  | S n' =>
      EvRequest q ::
      flat_map (fun i => [EvSleep (backoff i); EvRequest q]) (seq first n')
  end.

(** The number of pages of at most 100 items that [limit] items fill. *)
Definition page_count (limit : Z) : nat := Z.to_nat ((limit + 99) / 100).

(** The events of fetching page [i] of a pagination that starts at
    [offset] with [remaining] items to go, its first transport call being
    call number [first_call]: the request for the page, then the page. *)
Definition page_events (transport : nat -> outcome) (w : World)
    (offset remaining : Z) (first_call i : nat) : list event :=
  [EvRequest (transactions_request (Z.min (remaining - 100 * Z.of_nat i) 100)
                                   (offset + 100 * Z.of_nat i) w);
   EvYield (default JNull (page_of (transport (first_call + i)%nat)))].

(** The operation sends at least one request. *)
Definition issues_request (op : operation) : bool :=
  match op with
  | OpGetTransactions limit => 0 <? limit
  | _ => true
  end.

(** The exception [refresh_access_token] raises. *)
Definition no_refresh_token : exc :=
  mkExc BrokerAuthenticationError (JStr "No refresh token available")
        None None None None.

(** What the wrapper makes of the result of its last attempt. *)
Definition wrap_result (r : result json) : result (option json) :=
  match r with
  | Returned j => Returned (Some j)
  | Raised e => Raised e
  end.

(** [w'] is [w] after some requests and yields and nothing else: the broker
    object is the same, the clock has not moved and no refresh was called. *)
Definition only_requests (w w' : World) : Prop :=
  broker w' = broker w /\
  clock w' = clock w /\
  (sent w <= sent w')%nat /\
  exists evs, trace w' = (trace w ++ evs)%list /\ refresh_calls evs = 0%nat.

(** The first thing that happened after [w] is a request. *)
Definition request_first (w w' : World) : Prop :=
  exists q evs, trace w' = (trace w ++ EvRequest q :: evs)%list /\
                req_headers q = headers (broker w).

(** The requests of a pagination of [limit] items, page after page. *)
Definition page_requests (w : World) (limit : Z) : list request :=
  map (fun i => transactions_request (Z.min (limit - 100 * Z.of_nat i) 100)
                                     (100 * Z.of_nat i) w)
      (seq 0 (page_count limit)).

(** The sizes asked for, page after page. *)
Definition batch_sizes (remaining : Z) : list Z :=
  map (fun i => Z.min (remaining - 100 * Z.of_nat i) 100) (seq 0 (page_count remaining)).

Definition total (sizes : list Z) : Z := fold_right Z.add 0 sizes.

(** ** More sample inputs *)

Module Scenarios.

(** Two rate-limited answers, then the account; the transport times out
    when asked again. *)
Definition limited_twice : nat -> outcome :=
  Samples.replay [Responded Samples.rate_limited; Responded Samples.rate_limited;
                  Responded (Samples.ok Samples.account_json)] (Failed Timeout).

(** A 401 for every request. *)
Definition always_unauthorized : nat -> outcome :=
  fun _ => Responded (Samples.refused 401 "Invalid or expired token").

(** A 401, then the order is accepted. *)
Definition unauthorized_once : nat -> outcome :=
  Samples.replay [Responded (Samples.refused 401 "Invalid or expired token")]
                 (Responded (Samples.ok Samples.order_json)).

(** Every request is answered with an empty page. *)
Definition always_ok : nat -> outcome :=
  fun _ => Responded (Samples.ok (JArr [])).

(** The clock reads 1000 s and the token ran out at 900 s. *)
Definition stale_world : World :=
  Samples.world_of (Samples.stale_broker (seconds 900)) (seconds 1000).

(** No refresh token is stored (the state [__init__] leaves). *)
Definition fresh_world : World := Samples.world_of Samples.fresh_broker 0.

End Scenarios.

(** ** Vocabulary of the further properties *)

(** The exception a call ended with, if it raised. *)
Definition failure {A} (r : result A) : option exc :=
  match r with
  | Raised e => Some e
  | Returned _ => None
  end.

(** The exception an operation ends with, if it raises. *)
Definition operation_failure (transport : nat -> outcome) (read_float : float_reader)
    (op : operation) (w : World) : option exc :=
  match op with
  | OpGetAccount => failure (fst (get_account transport w))
  | OpGetPositions => failure (fst (get_positions transport read_float w))
  | OpGetTransactions limit => failure (fst (get_transactions transport limit w))
  | OpGetAsset symbol => failure (fst (get_asset transport symbol w))
  | OpPlaceOrder a => failure (fst (place_order transport read_float a w))
  | OpGetOrderStatus order_id =>
      failure (fst (get_order_status transport read_float order_id w))
  | OpCancelOrder order_id => failure (fst (cancel_order transport order_id w))
  end.

(** The text of the operation's [except Timeout] clause. *)
Definition timeout_text (op : operation) : string :=
  match op with
  | OpPlaceOrder _ => "Connection timed out after 30 seconds"
  | _ => "Request timed out"
  end.

(** The six classes [broker_errors.py] declares. *)
Definition broker_classes : list exc_class :=
  [BrokerError; BrokerAuthenticationError; BrokerRateLimitError; BrokerAPIError;
   BrokerNetworkError; OrderValidationError].



(** Every request among [evs] carries the headers [hdrs]. *)
Definition requests_carry (hdrs : gmap string string) (evs : list event) : Prop :=
  Forall (fun q => req_headers q = hdrs) (requests_of evs).

(** A paginator request for between 1 and 100 items that lie at or after
    [lo] and before [hi]. *)
Definition page_within (lo hi : Z) (q : request) : Prop :=
  exists batch offset,
    page_params q = (Some batch, Some offset) /\
    1 <= batch <= 100 /\ lo <= offset /\ offset + batch <= hi.

(** The body of the first response is the dict with the entries [fields]. *)
Definition answers_dict (transport : nat -> outcome) (w : World)
    (fields : list (string * json)) : Prop :=
  page_of (transport (sent w)) = Some (JObj fields).

(** [float(v)] succeeds on [v]. *)
Definition floatable (read_float : float_reader) (v : json) : Prop :=
  exists q, py_float read_float v = Returned q.

(** * Properties *)

(** ** The embedding at work *)

Example to_int_samples :
  PyStr.to_int "1700000060" = Some 1700000060 /\
  PyStr.to_int " -42 " = Some (-42) /\
  PyStr.to_int "1_000" = Some 1000 /\
  PyStr.to_int "007" = Some 7 /\
  PyStr.to_int "1__0" = None /\
  PyStr.to_int "12.5" = None /\
  PyStr.to_int "soon" = None.
Proof. repeat split. Qed.

Example lower_samples :
  PyStr.lower "Trading HALTED for AAPL (code 403)" = "trading halted for aapl (code 403)" /\
  PyStr.contains "trading halted" (PyStr.lower "Trading HALTED for AAPL") = true /\
  PyStr.contains "asset not found" "Asset Not Found" = false.
Proof. repeat split. Qed.

(** A malformed reset header is not classified: [int] raises. *)
Example malformed_reset_header :
  exc_cls (Classifier._handle_http_error (Samples.rate_limited_at "soon") 0)
    = ValueError.
Proof. reflexivity. Qed.

(** Messages that do not come from the body. *)
Example message_falls_back :
  Classifier.message_of (mkResponse 500 None ∅ "500 Server Error") = JStr "500 Server Error" /\
  Classifier.message_of (mkResponse 500 (Some (JArr [])) ∅ "500 Server Error")
    = JStr "500 Server Error" /\
  Classifier.message_of (mkResponse 500 (Some (JObj [("code", JNull)])) ∅ "500 Server Error")
    = JStr "500 Server Error".
Proof. repeat split. Qed.

(** ** The error classifier *)

Section ClassifierFacts.

Import Classifier.

Lemma handle_429 (r : response) (now : timestamp) :
  status_code r = 429 ->
  _handle_http_error r now =
    match retry_after_of r now with
    | Some retry_after => rate_limit_exc (message_of r) 429 r retry_after
    | None => foreign_exc ValueError
    end.
Proof. intros E. unfold _handle_http_error. rewrite E. reflexivity. Qed.

Lemma handle_403 (r : response) (now : timestamp) (m : string) :
  status_code r = 403 -> message_of r = JStr m ->
  _handle_http_error r now =
    broker_exc
      (if (PyStr.contains "insufficient" (PyStr.lower m) ||
           PyStr.contains "trading halted" (PyStr.lower m))%bool
       then OrderValidationError else BrokerAPIError)
      (JStr m) 403 r.
Proof.
  intros E Em. unfold _handle_http_error. rewrite E, Em. simpl.
  destruct (PyStr.contains "insufficient" (PyStr.lower m)); simpl; [reflexivity|].
  destruct (PyStr.contains "trading halted" (PyStr.lower m)); reflexivity.
Qed.

Lemma handle_404 (r : response) (now : timestamp) (m : string) :
  status_code r = 404 -> message_of r = JStr m ->
  _handle_http_error r now =
    broker_exc
      (if PyStr.contains "asset not found" m
       then OrderValidationError else BrokerAPIError)
      (JStr m) 404 r.
Proof.
  intros E Em. unfold _handle_http_error. rewrite E, Em. simpl.
  destruct (PyStr.contains "asset not found" m); reflexivity.
Qed.

End ClassifierFacts.

(** *** C1 *)

(** C1, as stated, fails: a 429 whose [x-ratelimit-reset] is 100 while the
    clock reads 200 s is classified as a [BrokerRateLimitError] whose
    [retry_after] is -100; nothing floors it at 0. *)
Lemma C1_retry_after_negative :
  exc_cls (Classifier._handle_http_error (Samples.rate_limited_at "100") (seconds 200))
    = BrokerRateLimitError /\
  exc_retry_after (Classifier._handle_http_error (Samples.rate_limited_at "100") (seconds 200))
    = Some (-100).
Proof. split; vm_compute; reflexivity. Qed.

(** C1, amended: a 429 whose [x-ratelimit-reset] header is absent or
    empty is classified as a [BrokerRateLimitError] whose [retry_after] is
    60; a 429 whose header holds an integer literal is classified as a
    [BrokerRateLimitError] whose [retry_after] is that integer minus the
    clock reading truncated to whole seconds.  Either error carries the
    message, the status and the response.  The difference is not
    floored: it is negative exactly when the header's integer is smaller
    than the truncated clock reading. *)
Theorem C1_retry_after (r : response) (now : timestamp) :
  status_code r = 429 ->
  ((resp_headers r !! "x-ratelimit-reset" = None \/
    resp_headers r !! "x-ratelimit-reset" = Some "") ->
   Classifier._handle_http_error r now
     = rate_limit_exc (Classifier.message_of r) 429 r 60) /\
  (forall h reset,
     resp_headers r !! "x-ratelimit-reset" = Some h ->
     PyStr.to_int h = Some reset ->
     Classifier._handle_http_error r now
       = rate_limit_exc (Classifier.message_of r) 429 r (reset - int_of_time now) /\
     (reset - int_of_time now < 0 <-> reset < int_of_time now)).
Proof.
  intros E. rewrite (handle_429 _ _ E). unfold Classifier.retry_after_of. split.
  - intros [-> | ->]; reflexivity.
  - intros h reset -> Hint. split; [|lia].
    destruct h as [|c h']; [discriminate Hint|].
    simpl PyStr.truthy. cbv iota. rewrite Hint. reflexivity.
Qed.

Lemma C1_retry_after_witness :
  Classifier._handle_http_error (Samples.rate_limited_at "1700000060")
                                (seconds 1700000000 + 250000)
    = rate_limit_exc (JStr "rate limit exceeded") 429
                     (Samples.rate_limited_at "1700000060") 60.
Proof.
  destruct (C1_retry_after (Samples.rate_limited_at "1700000060")
              (seconds 1700000000 + 250000) eq_refl) as [_ H].
  destruct (H "1700000060" 1700000060 eq_refl eq_refl) as [H1 _].
  exact H1.
Defined.

(** ** Text containment *)

Section TextFacts.

Lemma prefix_app (n h : string) :
  String.prefix n h = true <-> exists post, h = n ++ post.
Proof.
  revert h. induction n as [|a n IH]; intros h; simpl.
  - split; [intros _; exists h; reflexivity | intros _; destruct h; reflexivity].
  - destruct h as [|b h]; [split; [discriminate | intros [post H]; discriminate H]|].
    simpl. destruct (ascii_dec a b) as [->|Hne].
    + rewrite IH. split; intros [post H]; exists post.
      * simpl. now rewrite H.
      * simpl in H. now inversion H.
    + split; [discriminate|]. intros [post H]. simpl in H.
      injection H as Hba _. symmetry in Hba. contradiction.
Qed.

Lemma contains_occurs (n h : string) :
  PyStr.contains n h = true <-> occurs n h.
Proof.
  unfold occurs. induction h as [|c h IH].
  - cbn [PyStr.contains]. rewrite orb_false_r, prefix_app. split.
    + intros [post H]. exists "", post. exact H.
    + intros [pre [post H]]. destruct pre; simpl in H.
      * exists post. exact H.
      * discriminate H.
  - cbn [PyStr.contains]. rewrite orb_true_iff, prefix_app, IH. split.
    + intros [[post H] | [pre [post H]]].
      * exists "", post. exact H.
      * exists (String c pre), post. simpl. now rewrite H.
    + intros [pre [post H]]. destruct pre as [|c' pre]; simpl in H.
      * left. exists post. exact H.
      * right. injection H as _ H. exists pre, post. exact H.
Qed.

Lemma lower_app (a b : string) :
  PyStr.lower (a ++ b) = PyStr.lower a ++ PyStr.lower b.
Proof. induction a as [|c a IH]; simpl; [reflexivity | now rewrite IH]. Qed.

Lemma lower_app_inv (s a b : string) :
  PyStr.lower s = a ++ b ->
  exists s1 s2, s = s1 ++ s2 /\ PyStr.lower s1 = a /\ PyStr.lower s2 = b.
Proof.
  revert s. induction a as [|c a IH]; intros s H.
  - exists "", s. auto.
  - destruct s as [|d s]; [discriminate H|].
    simpl in H. injection H as Hc Hrest.
    destruct (IH s Hrest) as [s1 [s2 [Hs [H1 H2]]]].
    exists (String d s1), s2. simpl. rewrite Hs, Hc, H1. auto.
Qed.

(** Searching the lower-cased text for a lower-case needle is searching the
    text for the needle in any mix of cases. *)
Lemma contains_lower (n h : string) :
  PyStr.lower n = n ->
  PyStr.contains n (PyStr.lower h) = true <-> occurs_ignoring_case n h.
Proof.
  intros Hn. rewrite contains_occurs. unfold occurs, occurs_ignoring_case. split.
  - intros [pre [post H]].
    destruct (lower_app_inv _ _ _ H) as [s1 [s2 [-> [_ H2]]]].
    destruct (lower_app_inv _ _ _ H2) as [mid [s3 [-> [Hmid _]]]].
    exists s1, mid, s3. split; [reflexivity|]. now rewrite Hn.
  - intros [pre [mid [post [-> Hmid]]]].
    exists (PyStr.lower pre), (PyStr.lower post).
    now rewrite !lower_app, Hmid, Hn.
Qed.

End TextFacts.

(** *** C6 *)

(** Where the message of the failure is a text [m], the classifier does
    what C6 says: a 403 raises [OrderValidationError] when [m] contains
    "insufficient" or "trading halted" in any mix of cases and plain
    [BrokerAPIError] otherwise; a 404 raises [OrderValidationError] when
    [m] contains "asset not found" and plain [BrokerAPIError] otherwise;
    and [OrderValidationError] is a subclass of [BrokerAPIError]. *)
Lemma C6_forbidden_and_not_found (r : response) (now : timestamp) (m : string) :
  Classifier.message_of r = JStr m ->
  (status_code r = 403 ->
   ((occurs_ignoring_case "insufficient" m \/
     occurs_ignoring_case "trading halted" m) ->
    Classifier._handle_http_error r now
      = broker_exc OrderValidationError (JStr m) 403 r) /\
   (~ (occurs_ignoring_case "insufficient" m \/
       occurs_ignoring_case "trading halted" m) ->
    Classifier._handle_http_error r now
      = broker_exc BrokerAPIError (JStr m) 403 r)) /\
  (status_code r = 404 ->
   (occurs "asset not found" m ->
    Classifier._handle_http_error r now
      = broker_exc OrderValidationError (JStr m) 404 r) /\
   (~ occurs "asset not found" m ->
    Classifier._handle_http_error r now
      = broker_exc BrokerAPIError (JStr m) 404 r)) /\
  issubclass OrderValidationError BrokerAPIError = true /\
  (forall e, exc_cls e = OrderValidationError -> isinstance e BrokerAPIError = true).
Proof.
  intros Hm. split; [|split; [|split]].
  - intros E. rewrite (handle_403 _ now _ E Hm).
    rewrite <- !contains_lower by reflexivity. rewrite <- orb_true_iff.
    split; intros H.
    + now rewrite H.
    + apply not_true_is_false in H. now rewrite H.
  - intros E. rewrite (handle_404 _ now _ E Hm).
    rewrite <- contains_occurs. split; intros H.
    + now rewrite H.
    + apply not_true_is_false in H. now rewrite H.
  - reflexivity.
  - intros e He. unfold isinstance. now rewrite He.
Qed.

Lemma C6_forbidden_and_not_found_witness :
  Classifier._handle_http_error (Samples.refused 403 "Insufficient Buying Power") 0
    = broker_exc OrderValidationError (JStr "Insufficient Buying Power") 403
                 (Samples.refused 403 "Insufficient Buying Power").
Proof.
  destruct (C6_forbidden_and_not_found
              (Samples.refused 403 "Insufficient Buying Power") 0
              "Insufficient Buying Power" eq_refl) as [H _].
  destruct (H eq_refl) as [Hyes _].
  apply Hyes. left. exists "", "Insufficient", " Buying Power".
  split; reflexivity.
Defined.

(** C6 does not hold of the code for a failure whose body carries a
    [message] entry that is not text.  A 403 whose message is null holds
    neither "insufficient" nor "trading halted" and should be a plain
    [BrokerAPIError]; the classifier calls [message.lower()] on it
    (line 283) and [AttributeError] escapes, from [place_order] too.  A
    404 whose message is null should be a plain [BrokerAPIError] as well;
    the test ["asset not found" in message] (line 290) raises
    [TypeError], from [get_asset] too.  Neither exception is a broker
    error. *)
Theorem C6_message_not_text :
  let r403 := mkResponse 403 (Some (JObj [("message", JNull)])) ∅
                         "403 Client Error: Forbidden" in
  let r404 := mkResponse 404 (Some (JObj [("message", JNull)])) ∅
                         "404 Client Error: Not Found" in
  (Classifier._handle_http_error r403 0 = foreign_exc AttributeError /\
   isinstance (Classifier._handle_http_error r403 0) BrokerError = false /\
   fst (place_order (fun _ => Responded r403) Samples.no_floats
                    Samples.market_order Scenarios.fresh_world)
     = Raised (foreign_exc AttributeError)) /\
  (Classifier._handle_http_error r404 0 = foreign_exc TypeError /\
   isinstance (Classifier._handle_http_error r404 0) BrokerError = false /\
   fst (get_asset (fun _ => Responded r404) "AAPL" Scenarios.fresh_world)
     = Raised (foreign_exc TypeError)).
Proof. repeat split. Qed.

(** ** Order construction *)

(** C7.  The payload of the request [place_order] sends holds [notional]
    exactly when the caller gave one, and then holds no [qty]: when both
    are given, [notional] wins and [qty] is dropped.  It holds
    [limit_price] exactly when the caller gave one. *)
Theorem C7_order_payload (transport : nat -> outcome) (read_float : float_reader)
    (a : order_args) (w : World) :
  trace (snd (place_order transport read_float a w))
    = (trace w ++ [EvRequest (order_request a w)])%list /\
  req_json (order_request a w) = Some (order_payload a) /\
  order_payload a !! "notional" = PFloat <$> arg_notional a /\
  order_payload a !! "qty"
    = match arg_notional a with
      | Some _ => None
      | None => Some (PFloat (arg_qty a))
      end /\
  order_payload a !! "limit_price" = PFloat <$> arg_limit_price a.
Proof.
  split; [|split; [reflexivity|]].
  - unfold place_order, bind, exchange, lift.
    destruct (transport (sent w)) as [r|[]]; simpl; try reflexivity.
    destruct (is_http_error r); simpl; [reflexivity|].
    destruct (resp_json r); reflexivity.
  - unfold order_payload.
    destruct (arg_notional a), (arg_limit_price a); simpl;
      repeat split; by simplify_map_eq.
Qed.

Example both_qty_and_notional_payload :
  order_payload Samples.both_qty_and_notional
    = {[ "symbol" := PStr "AAPL"; "side" := PStr "buy"; "type" := PStr "market";
         "time_in_force" := PStr "day"; "notional" := PFloat (Qc_of_Z 500) ]}.
Proof. apply map_eq. intros k. vm_compute. reflexivity. Qed.

(** ** One exchange *)

Section ExchangeFacts.

Variable transport : nat -> outcome.

Lemma exchange_unfold (q : request) (timeout_message : string) (w : World) :
  exchange transport q timeout_message w
    = (exchange_result (transport (sent w)) timeout_message (clock w),
       mkWorld (broker w) (clock w) (S (sent w)) (trace w ++ [EvRequest q])).
Proof.
  unfold exchange, exchange_result.
  destruct (transport (sent w)) as [r|[]]; simpl; try reflexivity.
  destruct (is_http_error r); [reflexivity|].
  destruct (resp_json r); reflexivity.
Qed.

(** Which class an exchange raises does not depend on the clock or on the
    text of the [Timeout] clause. *)
Lemma exchange_result_class (o : outcome) (msg1 msg2 : string) (t1 t2 : timestamp)
    (c : exc_class) :
  match exchange_result o msg1 t1 with
  | Raised e => isinstance e c
  | Returned _ => false
  end
  = match exchange_result o msg2 t2 with
    | Raised e => isinstance e c
    | Returned _ => false
    end.
Proof.
  destruct o as [r|[]]; simpl; try reflexivity.
  destruct (is_http_error r); [|destruct (resp_json r); reflexivity].
  unfold Classifier._handle_http_error.
  repeat match goal with
         | |- context [if ?b then _ else _] => destruct b; try reflexivity
         end.
  unfold Classifier.retry_after_of.
  destruct (resp_headers r !! "x-ratelimit-reset") as [h|]; [|reflexivity].
  destruct (PyStr.truthy h); [|reflexivity].
  destruct (PyStr.to_int h); reflexivity.
Qed.

End ExchangeFacts.

(** ** Token management *)

(** C9.  When [refresh_access_token] raises, the broker object is as it was
    before the call: access token, refresh token and expiry are untouched.
    It raises exactly when no refresh token is stored, and what it raises
    is an authentication error. *)
Theorem C9_failed_refresh_keeps_credential (w : World) :
  (forall e w', refresh_access_token w = (Raised e, w') ->
     broker w' = broker w /\ e = no_refresh_token /\
     truthy_text (refresh_token (broker w)) = false) /\
  (truthy_text (refresh_token (broker w)) = false ->
     refresh_access_token w = (Raised no_refresh_token, log EvRefresh w) /\
     exc_cls no_refresh_token = BrokerAuthenticationError /\
     broker (log EvRefresh w) = broker w).
Proof.
  unfold refresh_access_token. simpl.
  destruct (truthy_text (refresh_token (broker w))); simpl; split.
  - intros e w' H. discriminate H.
  - intros H. discriminate H.
  - intros e w' H. injection H as <- <-. auto.
  - intros _. auto.
Qed.

Lemma C9_failed_refresh_keeps_credential_witness :
  refresh_access_token (Samples.world_of Samples.fresh_broker 0)
    = (Raised no_refresh_token, log EvRefresh (Samples.world_of Samples.fresh_broker 0)) /\
  broker (log EvRefresh (Samples.world_of Samples.fresh_broker 0)) = Samples.fresh_broker.
Proof.
  destruct (C9_failed_refresh_keeps_credential (Samples.world_of Samples.fresh_broker 0))
    as [_ H].
  destruct (H eq_refl) as [H1 [_ H3]].
  split; [exact H1 | exact H3].
Defined.

(** ** The rate-limit retry wrapper *)

Section RetryFacts.

Variable transport : nat -> outcome.

Lemma get_account_unfold (w : World) :
  get_account transport w
    = (exchange_result (transport (sent w)) "Request timed out" (clock w),
       mkWorld (broker w) (clock w) (S (sent w))
               (trace w ++ [EvRequest (simple_request GET "/account" w)])).
Proof. unfold get_account. apply exchange_unfold. Qed.

(** [get_account] raises a rate-limit error exactly on a rate-limited
    outcome, whatever the clock reads. *)
Lemma rate_limited_spec (o : outcome) (now : timestamp) :
  rate_limited o
    = match exchange_result o "Request timed out" now with
      | Raised e => isinstance e BrokerRateLimitError
      | Returned _ => false
      end.
Proof. unfold rate_limited. apply exchange_result_class. Qed.

End RetryFacts.

(** C10.  With [max_retries <= 0] the loop body never runs:
    [get_account_with_retry] sends nothing, touches nothing and returns
    [None]. *)
Theorem C10_no_attempt (transport : nat -> outcome) (max_retries : Z) (w : World) :
  max_retries <= 0 ->
  get_account_with_retry transport max_retries w = (Returned None, w).
Proof.
  intros H. unfold get_account_with_retry.
  replace (Z.to_nat max_retries) with 0%nat by lia. reflexivity.
Qed.

Lemma C10_no_attempt_witness :
  get_account_with_retry (Samples.replay [] (Failed Timeout)) 0
                         (Samples.world_of Samples.fresh_broker 0)
    = (Returned None, Samples.world_of Samples.fresh_broker 0).
Proof. apply C10_no_attempt. lia. Defined.

Section RetryLoop.

Variable transport : nat -> outcome.

Lemma retry_events_step (q : request) (a n : nat) :
  retry_events q a (S (S n))
    = EvRequest q :: EvSleep (backoff a) :: retry_events q (S a) (S n).
Proof. reflexivity. Qed.

Lemma retry_loop_spec (todo : nat) :
  forall (a : nat) (w : World),
    (1 <= todo)%nat ->
    let max_retries := Z.of_nat (a + todo) in
    let run := retry_loop transport todo (Z.of_nat a) max_retries w in
    let q := simple_request GET "/account" w in
    exists n : nat,
      (1 <= n <= todo)%nat /\
      sent (snd run) = (sent w + n)%nat /\
      trace (snd run) = (trace w ++ retry_events q a n)%list /\
      broker (snd run) = broker w /\
      (forall i, (i < n - 1)%nat -> rate_limited (transport (sent w + i)%nat) = true) /\
      fst run = wrap_result
                  (exchange_result (transport (sent w + (n - 1))%nat)
                                   "Request timed out" (clock (snd run))) /\
      (rate_limited (transport (sent w + (n - 1))%nat) = true -> n = todo).
Proof.
  induction todo as [|todo IH]; intros a w Htodo; [lia|].
  cbn zeta. cbn [retry_loop]. unfold try_except, bind, ret.
  rewrite get_account_unfold.
  set (w1 := mkWorld (broker w) (clock w) (S (sent w))
                     (trace w ++ [EvRequest (simple_request GET "/account" w)])).
  pose proof (rate_limited_spec (transport (sent w)) (clock w)) as Hrl.
  destruct (exchange_result (transport (sent w)) "Request timed out" (clock w))
    as [j|e] eqn:Eres.
  - (* the attempt succeeds *)
    exists 1%nat. simpl. rewrite Nat.add_0_r, Eres. simpl.
    repeat split; try reflexivity; try lia; try (intros; lia); try (intros; congruence).
  - destruct (isinstance e BrokerRateLimitError) eqn:Ecls.
    + destruct (Z.of_nat a <? Z.of_nat (a + S todo) - 1) eqn:Emore.
      * (* rate limited, attempts left: sleep and go round again *)
        apply Z.ltb_lt in Emore.
        assert (Htodo' : (1 <= todo)%nat) by lia.
        unfold sleep.
        set (w2 := mkWorld (broker w1) (clock w1 + seconds (Z.min (2 ^ Z.of_nat a) 60))
                           (sent w1) (trace w1 ++ [EvSleep (Z.min (2 ^ Z.of_nat a) 60)])).
        destruct (IH (S a) w2 Htodo') as [n [Hn [Hsent [Htrace [Hb [Hall [Hres Hlast]]]]]]].
        replace (Z.of_nat (S a + todo)) with (Z.of_nat (a + S todo)) in * by lia.
        replace (Z.of_nat (S a)) with (Z.of_nat a + 1) in * by lia.
        exists (S n).
        replace (sent w2) with (S (sent w)) in * by reflexivity.
        replace (S n - 1)%nat with (S (n - 1)) by lia.
        replace (sent w + S (n - 1))%nat with (S (sent w) + (n - 1))%nat by lia.
        split; [lia|]. split; [rewrite Hsent; lia|].
        split.
        { rewrite Htrace. destruct n as [|n]; [lia|].
          rewrite retry_events_step. unfold w2, w1. simpl.
          rewrite <- !app_assoc. reflexivity. }
        split; [rewrite Hb; reflexivity|].
        split.
        { intros i Hi. destruct i as [|i].
          - rewrite Nat.add_0_r. exact Hrl.
          - replace (sent w + S i)%nat with (S (sent w) + i)%nat by lia.
            apply Hall. lia. }
        split; [exact Hres|].
        intros H. specialize (Hlast H). lia.
      * (* rate limited on the final attempt: re-raise *)
        apply Z.ltb_ge in Emore.
        exists 1%nat. simpl. rewrite Nat.add_0_r, Eres. simpl.
    repeat split; try reflexivity; try lia; try (intros; lia); try (intros; congruence).
    + (* any other exception propagates at once *)
      exists 1%nat. simpl. rewrite Nat.add_0_r, Eres. simpl.
    repeat split; try reflexivity; try lia; try (intros; lia); try (intros; congruence).
Qed.

End RetryLoop.

Lemma page_exchange (o : outcome) (msg : string) (now : timestamp) (j : json) :
  page_of o = Some j -> exchange_result o msg now = Returned j.
Proof.
  destruct o as [r|f]; simpl; [|discriminate].
  destruct (is_http_error r); [discriminate|]. now intros ->.
Qed.

(** C5.  For [max_retries >= 1], [get_account_with_retry] makes between 1
    and [max_retries] attempts.  Every attempt but the last was rate
    limited, and the back-off [min(2^attempt, 60)] (attempt counted from 0)
    precedes each retry and nothing else happens.  The result is that of
    the last attempt: a success is returned, any other exception propagates
    at once, and a rate-limit error propagates only from attempt number
    [max_retries].  In particular two rate-limited outcomes followed by a
    success, with [max_retries = 3], succeed on the third attempt after
    back-offs of 1 and 2 seconds. *)
Theorem C5_retry_with_backoff (transport : nat -> outcome) (max_retries : Z)
    (w : World) :
  1 <= max_retries ->
  let run := get_account_with_retry transport max_retries w in
  let attempts := (sent (snd run) - sent w)%nat in
  let last := transport (sent w + (attempts - 1))%nat in
  (1 <= attempts)%nat /\ Z.of_nat attempts <= max_retries /\
  trace (snd run)
    = (trace w ++ retry_events (simple_request GET "/account" w) 0 attempts)%list /\
  (forall i, (i < attempts - 1)%nat ->
             rate_limited (transport (sent w + i)%nat) = true) /\
  fst run = wrap_result (exchange_result last "Request timed out" (clock (snd run))) /\
  (rate_limited last = true ->
   Z.of_nat attempts = max_retries /\
   exists e, fst run = Raised e /\ isinstance e BrokerRateLimitError = true) /\
  (max_retries = 3 ->
   rate_limited (transport (sent w)) = true ->
   rate_limited (transport (sent w + 1)%nat) = true ->
   forall j, page_of (transport (sent w + 2)%nat) = Some j ->
   fst run = Returned (Some j) /\ attempts = 3%nat /\
   sleeps_of (retry_events (simple_request GET "/account" w) 0 attempts) = [1; 2]).
Proof.
  intros Hmax. cbn zeta. unfold get_account_with_retry.
  destruct (retry_loop_spec transport (Z.to_nat max_retries) 0 w ltac:(lia))
    as [n [Hn [Hsent [Htrace [_ [Hall [Hres Hlast]]]]]]].
  cbn zeta in *.
  replace (Z.of_nat (0 + Z.to_nat max_retries)) with max_retries in * by lia.
  change (Z.of_nat 0) with 0 in *.
  set (run := retry_loop transport (Z.to_nat max_retries) 0 max_retries w) in *.
  rewrite Hsent.
  replace (sent w + n - sent w)%nat with n by lia.
  assert (Hlast' : rate_limited (transport (sent w + (n - 1))%nat) = true ->
                   Z.of_nat n = max_retries /\
                   exists e, fst run = Raised e /\
                             isinstance e BrokerRateLimitError = true).
  { intros H. split; [specialize (Hlast H); lia|].
    rewrite (rate_limited_spec _ (clock (snd run))) in H. rewrite Hres.
    destruct (exchange_result _ _ _) as [j|e]; [discriminate H|].
    exists e. auto. }
  split; [lia|]. split; [lia|]. split; [exact Htrace|]. split; [exact Hall|].
  split; [exact Hres|]. split; [exact Hlast'|].
  intros -> H0 H1 j Hj.
  assert (n = 3%nat) as ->.
  { destruct (Nat.eq_dec n 1%nat) as [->|].
    - simpl in Hlast. rewrite Nat.add_0_r in Hlast. specialize (Hlast H0). lia.
    - destruct (Nat.eq_dec n 2%nat) as [->|]; [|lia].
      simpl in Hlast. specialize (Hlast H1). lia. }
  split; [|split; reflexivity].
  rewrite Hres. simpl. now rewrite (page_exchange _ _ _ _ Hj).
Qed.

Lemma C5_retry_with_backoff_witness :
  fst (get_account_with_retry Scenarios.limited_twice 3 Scenarios.fresh_world)
    = Returned (Some Samples.account_json) /\
  sent (snd (get_account_with_retry Scenarios.limited_twice 3 Scenarios.fresh_world))
    = 3%nat /\
  sleeps_of
    (trace (snd (get_account_with_retry Scenarios.limited_twice 3 Scenarios.fresh_world)))
    = [1; 2].
Proof.
  pose proof (C5_retry_with_backoff Scenarios.limited_twice 3 Scenarios.fresh_world
                ltac:(lia)) as H.
  cbn zeta in H.
  destruct H as [_ [_ [Htrace [_ [_ [_ Hcase]]]]]].
  destruct (Hcase eq_refl eq_refl eq_refl Samples.account_json eq_refl)
    as [Hres [Hn Hsleeps]].
  split; [exact Hres|]. split; [vm_compute; reflexivity|].
  rewrite Htrace. simpl trace. simpl app. exact Hsleeps.
Defined.

(** ** The request methods never look at the token *)

Section RequestFacts.

Variable transport : nat -> outcome.
Variable read_float : float_reader.

Lemma refresh_calls_app (t1 t2 : list event) :
  refresh_calls (t1 ++ t2) = (refresh_calls t1 + refresh_calls t2)%nat.
Proof. unfold refresh_calls. now rewrite List.filter_app, length_app. Qed.

Lemma requests_of_app (t1 t2 : list event) :
  requests_of (t1 ++ t2) = (requests_of t1 ++ requests_of t2)%list.
Proof.
  induction t1 as [|ev t1 IH]; simpl; [reflexivity|].
  destruct ev; simpl; now rewrite ?IH.
Qed.

Lemma only_requests_refl (w : World) : only_requests w w.
Proof.
  repeat split; auto. exists []. now rewrite app_nil_r.
Qed.

Lemma only_requests_trans (w1 w2 w3 : World) :
  only_requests w1 w2 -> only_requests w2 w3 -> only_requests w1 w3.
Proof.
  intros (Hb1 & Hc1 & Hs1 & evs1 & Ht1 & Hr1) (Hb2 & Hc2 & Hs2 & evs2 & Ht2 & Hr2).
  repeat split; try congruence; try lia.
  exists (evs1 ++ evs2)%list. rewrite Ht2, Ht1, <- app_assoc.
  split; [reflexivity|]. rewrite refresh_calls_app. lia.
Qed.

Lemma exchange_only_requests (q : request) (msg : string) (w : World) :
  only_requests w (snd (exchange transport q msg w)).
Proof.
  rewrite exchange_unfold. simpl. repeat split; simpl; auto.
  exists [EvRequest q]. auto.
Qed.

Lemma exchange_request_first (q : request) (msg : string) (w : World) :
  req_headers q = headers (broker w) ->
  request_first w (snd (exchange transport q msg w)).
Proof.
  intros Hq. rewrite exchange_unfold. simpl. exists q, []. auto.
Qed.

Lemma exchange_sent (q : request) (msg : string) (w : World) :
  sent (snd (exchange transport q msg w)) = S (sent w).
Proof. now rewrite exchange_unfold. Qed.

(** A method that is one exchange followed by parsing. *)
Lemma exchange_then_parse {A} (q : request) (msg : string)
    (parse : json -> result A) (w : World) :
  snd (bind (exchange transport q msg) (fun j => lift (parse j)) w)
    = snd (exchange transport q msg w).
Proof.
  unfold bind, lift. destruct (exchange transport q msg w) as [[j|e] w']; reflexivity.
Qed.

Lemma request_first_trans (w1 w2 w3 : World) :
  request_first w1 w2 -> only_requests w2 w3 -> request_first w1 w3.
Proof.
  intros (q & evs & Ht & Hq) (_ & _ & _ & evs2 & Ht2 & _).
  exists q, (evs ++ evs2)%list. rewrite Ht2, Ht, <- app_assoc. auto.
Qed.

Lemma transactions_loop_only_requests (fuel : nat) :
  forall offset remaining w,
    only_requests w (snd (transactions_loop transport fuel offset remaining w)).
Proof.
  induction fuel as [|fuel IH]; intros offset remaining w; simpl;
    destruct (remaining >? 0); try apply only_requests_refl.
  unfold bind.
  pose proof (exchange_only_requests
                (transactions_request (Z.min remaining 100) offset w)
                "Request timed out" w) as Hex.
  destruct (exchange transport _ _ w) as [[page|e] w1]; simpl in *; [|exact Hex].
  eapply only_requests_trans; [exact Hex|].
  eapply only_requests_trans; [|apply IH].
  repeat split; simpl; auto. exists [EvYield page]. auto.
Qed.

Lemma transactions_loop_request_first (fuel : nat) (offset remaining : Z) (w : World) :
  (0 < fuel)%nat -> 0 < remaining ->
  request_first w (snd (transactions_loop transport fuel offset remaining w)) /\
  (sent w < sent (snd (transactions_loop transport fuel offset remaining w)))%nat.
Proof.
  intros Hfuel Hrem. destruct fuel as [|fuel]; [lia|]. simpl.
  replace (remaining >? 0) with true by (symmetry; apply Z.gtb_lt; lia).
  unfold bind.
  pose proof (exchange_request_first
                (transactions_request (Z.min remaining 100) offset w)
                "Request timed out" w eq_refl) as Hex.
  pose proof (exchange_sent
                (transactions_request (Z.min remaining 100) offset w)
                "Request timed out" w) as Hsent.
  destruct (exchange transport _ _ w) as [[page|e] w1]; simpl in *;
    [|split; [exact Hex | lia]].
  pose proof (transactions_loop_only_requests fuel
                (offset + Z.min remaining 100) (remaining - Z.min remaining 100)
                (log (EvYield page) w1)) as Hloop.
  split.
  - eapply request_first_trans; [exact Hex|].
    eapply only_requests_trans; [|exact Hloop].
    repeat split; simpl; auto. exists [EvYield page]. auto.
  - destruct Hloop as (_ & _ & Hs & _). simpl in Hs. lia.
Qed.

End RequestFacts.

(** *** C3 *)

(** C3, as stated, fails: with the clock at 1000 s and a token that ran out
    at 900 s, [get_account] sends its request at once; no refresh is called
    and the broker object still holds the expired token afterwards. *)
Lemma C3_stale_token_is_used :
  token_expired Scenarios.stale_world = true /\
  trace (run_operation Scenarios.always_ok Samples.no_floats OpGetAccount
                       Scenarios.stale_world)
    = [EvRequest (simple_request GET "/account" Scenarios.stale_world)] /\
  broker (run_operation Scenarios.always_ok Samples.no_floats OpGetAccount
                        Scenarios.stale_world)
    = Samples.stale_broker (seconds 900).
Proof. repeat split. Qed.

(** C3, amended: no public request operation looks at [token_expires_at].
    Whether or not the token has expired, each of the seven operations
    only sends requests (and, for the paginator, hands out pages): it calls
    no refresh and leaves the broker object and so the credential as they
    were.  Unless it is a pagination of no items, the first thing it does
    is to send a request, which carries the headers stored on the broker. *)
Theorem C3_requests_without_refresh (transport : nat -> outcome)
    (read_float : float_reader) (op : operation) (w : World) :
  only_requests w (run_operation transport read_float op w) /\
  refresh_calls (trace (run_operation transport read_float op w))
    = refresh_calls (trace w) /\
  (issues_request op = true ->
   request_first w (run_operation transport read_float op w) /\
   (sent w < sent (run_operation transport read_float op w))%nat).
Proof.
  assert (Hquiet : only_requests w (run_operation transport read_float op w)).
  { destruct op; simpl;
      unfold get_account, get_positions, get_asset, place_order,
             get_order_status, cancel_order, get_transactions;
      rewrite ?exchange_then_parse;
      first [apply exchange_only_requests | apply transactions_loop_only_requests]. }
  split; [exact Hquiet|]. split.
  - destruct Hquiet as (_ & _ & _ & evs & -> & Hevs).
    rewrite refresh_calls_app. lia.
  - intros Hop.
    destruct op; simpl in *;
      unfold get_account, get_positions, get_asset, place_order,
             get_order_status, cancel_order, get_transactions;
      rewrite ?exchange_then_parse;
      try (split; [now apply exchange_request_first
                  | rewrite exchange_sent; lia]).
    apply Z.ltb_lt in Hop.
    apply transactions_loop_request_first; lia.
Qed.

Lemma C3_requests_without_refresh_witness :
  token_expired Scenarios.stale_world = true /\
  request_first Scenarios.stale_world
    (run_operation Scenarios.always_ok Samples.no_floats
                   (OpPlaceOrder Samples.market_order) Scenarios.stale_world) /\
  refresh_calls
    (trace (run_operation Scenarios.always_ok Samples.no_floats
                          (OpPlaceOrder Samples.market_order) Scenarios.stale_world))
    = 0%nat.
Proof.
  destruct (C3_requests_without_refresh Scenarios.always_ok Samples.no_floats
              (OpPlaceOrder Samples.market_order) Scenarios.stale_world)
    as [_ [Hcalls Hfirst]].
  destruct (Hfirst eq_refl) as [Hreq _].
  split; [reflexivity|]. split; [exact Hreq | exact Hcalls].
Defined.

(** ** The auto-reauthentication wrapper *)

Section AutoRefresh.

Variable transport : nat -> outcome.
Variable read_float : float_reader.

Lemma place_order_unfold (a : order_args) (w : World) :
  place_order transport read_float a w
    = (rbind (exchange_result (transport (sent w))
                              "Connection timed out after 30 seconds" (clock w))
             (_parse_order read_float),
       mkWorld (broker w) (clock w) (S (sent w))
               (trace w ++ [EvRequest (order_request a w)])).
Proof.
  unfold place_order, bind, lift. rewrite exchange_unfold.
  destruct (exchange_result _ _ _); reflexivity.
Qed.

Lemma refresh_succeeds (w : World) :
  truthy_text (refresh_token (broker w)) = true ->
  refresh_access_token w
    = (Returned true,
       set_broker
         (mkBroker (Some ("refreshed_token_" ++ default "" (refresh_token (broker w))))
                   (refresh_token (broker w))
                   (Some (clock w + seconds 3600))
                   (headers (broker w)))
         (log EvRefresh w)).
Proof. intros H. unfold refresh_access_token. simpl. now rewrite H. Qed.

End AutoRefresh.

(** *** C4 *)

(** C4, as stated, fails: on a broker that stores no refresh token (the
    state [__init__] leaves), an order answered with 401 makes the wrapper
    call [refresh_access_token], whose own authentication error propagates;
    the order is not retried: one request was sent. *)
Lemma C4_no_retry_without_refresh_token :
  fst (place_order Scenarios.always_unauthorized Samples.no_floats
                   Samples.market_order Scenarios.fresh_world)
    = Raised (broker_exc BrokerAuthenticationError (JStr "Invalid or expired token")
                         401 (Samples.refused 401 "Invalid or expired token")) /\
  fst (place_order_with_auto_refresh Scenarios.always_unauthorized Samples.no_floats
                                     Samples.market_order Scenarios.fresh_world)
    = Raised no_refresh_token /\
  sent (snd (place_order_with_auto_refresh Scenarios.always_unauthorized
               Samples.no_floats Samples.market_order Scenarios.fresh_world))
    = 1%nat.
Proof. repeat split. Qed.

(** C4, amended: when the wrapped [place_order] raises an authentication
    error, [refresh_access_token] is called exactly once.  If a refresh
    token is stored the refresh succeeds and the order is placed exactly
    once more, from the refreshed state and with the same headers; whatever
    that second attempt returns or raises is the wrapper's result, so a
    second authentication error propagates unmodified, with no further
    refresh or request.  If no refresh token is stored the refresh raises
    its own authentication error, which propagates; the order is not
    retried and the broker object is unchanged. *)
Theorem C4_auto_refresh (transport : nat -> outcome) (read_float : float_reader)
    (a : order_args) (w : World) (e : exc) :
  fst (place_order transport read_float a w) = Raised e ->
  isinstance e BrokerAuthenticationError = true ->
  let w1 := snd (place_order transport read_float a w) in
  let run := place_order_with_auto_refresh transport read_float a w in
  refresh_calls (trace (snd run)) = S (refresh_calls (trace w)) /\
  (truthy_text (refresh_token (broker w)) = true ->
   exists w2,
     refresh_access_token w1 = (Returned true, w2) /\
     run = place_order transport read_float a w2 /\
     sent (snd run) = S (S (sent w)) /\
     requests_of (trace (snd run))
       = (requests_of (trace w) ++ [order_request a w; order_request a w])%list) /\
  (truthy_text (refresh_token (broker w)) = false ->
   run = (Raised no_refresh_token, log EvRefresh w1) /\
   sent (snd run) = S (sent w) /\
   broker (snd run) = broker w).
Proof.
  intros Hfirst Hauth. cbn zeta.
  unfold place_order_with_auto_refresh, try_except.
  destruct (place_order transport read_float a w) as [r1 w1] eqn:E1.
  simpl in Hfirst. subst r1. rewrite Hauth. cbn [snd].
  rewrite place_order_unfold in E1. injection E1 as _ Hw1.
  assert (Hb : broker w1 = broker w) by now subst w1.
  unfold bind.
  destruct (truthy_text (refresh_token (broker w))) eqn:Etok.
  - (* a refresh token is stored *)
    rewrite (refresh_succeeds w1) by now rewrite Hb.
    set (w2 := set_broker _ (log EvRefresh w1)).
    rewrite place_order_unfold. cbn [snd].
    split; [|split; [|discriminate]].
    + subst w2 w1. simpl. unfold refresh_calls.
      rewrite !List.filter_app, !length_app. simpl. lia.
    + intros _. exists w2. split; [reflexivity|].
      split; [now rewrite place_order_unfold|].
      split; [now subst w2 w1|].
      subst w2 w1. simpl. rewrite !requests_of_app. simpl.
      now rewrite <- !app_assoc.
  - (* no refresh token is stored *)
    assert (Hraise : refresh_access_token w1
                     = (Raised no_refresh_token, log EvRefresh w1)).
    { unfold refresh_access_token. simpl. now rewrite Hb, Etok. }
    rewrite Hraise. cbn [snd].
    split; [|split; [discriminate|]].
    + subst w1. simpl. unfold refresh_calls.
      rewrite !List.filter_app, !length_app. simpl. lia.
    + intros _. subst w1. auto.
Qed.

Lemma C4_auto_refresh_witness :
  sent (snd (place_order_with_auto_refresh Scenarios.always_unauthorized
               Samples.no_floats Samples.market_order Scenarios.stale_world))
    = 2%nat /\
  refresh_calls
    (trace (snd (place_order_with_auto_refresh Scenarios.always_unauthorized
                   Samples.no_floats Samples.market_order Scenarios.stale_world)))
    = 1%nat.
Proof.
  pose proof (C4_auto_refresh Scenarios.always_unauthorized Samples.no_floats
                Samples.market_order Scenarios.stale_world
                (broker_exc BrokerAuthenticationError (JStr "Invalid or expired token")
                            401 (Samples.refused 401 "Invalid or expired token"))
                eq_refl eq_refl) as H.
  cbn zeta in H. destruct H as [Hcalls [Hyes _]].
  destruct (Hyes eq_refl) as [w2 [_ [_ [Hsent _]]]].
  split; [exact Hsent | exact Hcalls].
Defined.
(** A 401, then success after the refresh: the order goes through on the
    second attempt, after one refresh. *)
Example auto_refresh_succeeds :
  (exists order,
     fst (place_order_with_auto_refresh Scenarios.unauthorized_once Samples.no_floats
            Samples.market_order Scenarios.stale_world) = Returned order /\
     order_id order = JStr "order_after_refresh") /\
  sent (snd (place_order_with_auto_refresh Scenarios.unauthorized_once
               Samples.no_floats Samples.market_order Scenarios.stale_world))
    = 2%nat /\
  refresh_calls
    (trace (snd (place_order_with_auto_refresh Scenarios.unauthorized_once
                   Samples.no_floats Samples.market_order Scenarios.stale_world)))
    = 1%nat.
Proof. split; [eexists; split; reflexivity | split; reflexivity]. Qed.

(** ** The paginator *)

Section Pagination.

Variable transport : nat -> outcome.

(** Every request is answered with a page. *)
Hypothesis all_pages : forall k, exists page, page_of (transport k) = Some page.

Lemma page_count_done (remaining : Z) :
  remaining <= 0 -> page_count remaining = 0%nat.
Proof.
  intros H. unfold page_count.
  assert ((remaining + 99) / 100 <= 0); [|lia].
  apply Z.lt_succ_r. apply Z.div_lt_upper_bound; lia.
Qed.

Lemma page_count_step (remaining : Z) :
  0 < remaining ->
  page_count remaining = S (page_count (remaining - Z.min remaining 100)).
Proof.
  intros H. unfold page_count.
  destruct (Z.le_gt_cases remaining 100) as [Hle|Hgt].
  - rewrite Z.min_l by lia.
    replace (remaining - remaining + 99) with 99 by lia.
    assert ((remaining + 99) / 100 = 1); [|change (99 / 100) with 0; lia].
    symmetry. apply Z.div_unique with (r := remaining - 1). lia. lia.
  - rewrite Z.min_r by lia.
    replace (remaining + 99) with ((remaining - 100 + 99) + 1 * 100) by lia.
    rewrite Z.div_add by lia.
    assert (0 <= (remaining - 100 + 99) / 100) by (apply Z.div_pos; lia).
    lia.
Qed.

Lemma flat_map_seq_shift {A} (f : nat -> list A) (n : nat) :
  forall a, flat_map f (seq (S a) n) = flat_map (fun i => f (S i)) (seq a n).
Proof.
  induction n as [|n IH]; intros a; simpl; [reflexivity|]. now rewrite IH.
Qed.

Lemma transactions_loop_spec (fuel : nat) :
  forall (offset remaining : Z) (w : World),
    (Z.to_nat remaining <= fuel)%nat ->
    let run := transactions_loop transport fuel offset remaining w in
    fst run = Returned true /\
    broker (snd run) = broker w /\
    sent (snd run) = (sent w + page_count remaining)%nat /\
    trace (snd run)
      = (trace w ++
         flat_map (page_events transport w offset remaining (sent w))
                  (seq 0 (page_count remaining)))%list.
Proof.
  induction fuel as [|fuel IH]; intros offset remaining w Hfuel; cbn zeta.
  - (* no fuel is needed when nothing remains *)
    simpl. replace (remaining >? 0) with false by (symmetry; rewrite Z.gtb_ltb; apply Z.ltb_ge; lia).
    rewrite page_count_done by lia. simpl. rewrite app_nil_r, Nat.add_0_r. auto.
  - simpl. destruct (remaining >? 0) eqn:Erem.
    + apply Z.gtb_lt in Erem.
      unfold bind. rewrite exchange_unfold.
      destruct (all_pages (sent w)) as [page Hpage].
      rewrite (page_exchange _ _ _ _ Hpage).
      set (batch := Z.min remaining 100).
      set (w1 := log (EvYield page) _).
      destruct (IH (offset + batch) (remaining - batch) w1 ltac:(subst batch; lia))
        as (Hres & Hb & Hsent & Htrace).
      rewrite (page_count_step remaining Erem). fold batch.
      split; [exact Hres|]. split; [now rewrite Hb|].
      split; [rewrite Hsent; subst w1; simpl; lia|].
      rewrite Htrace. subst w1. simpl trace. simpl sent.
      rewrite <- !app_assoc. f_equal. simpl.
      rewrite Z.sub_0_r, Z.add_0_r, Nat.add_0_r, Hpage. fold batch. simpl.
      f_equal. f_equal.
      destruct (Z.le_gt_cases remaining 100) as [Hle|Hgt].
      { (* this was the last page *)
        subst batch. rewrite Z.min_l by lia.
        replace (remaining - remaining) with 0 by lia.
        rewrite page_count_done by lia. reflexivity. }
      rewrite flat_map_seq_shift. apply flat_map_ext. intros i.
      subst batch. rewrite Z.min_r by lia.
      unfold page_events.
      unfold transactions_request. simpl.
      replace (remaining - 100 - 100 * Z.of_nat i)
        with (remaining - 100 * Z.of_nat (S i)) by lia.
      replace (offset + 100 + 100 * Z.of_nat i)
        with (offset + 100 * Z.of_nat (S i)) by lia.
      replace (S (sent w + i))%nat with (sent w + S i)%nat by lia.
      reflexivity.
    + rewrite Z.gtb_ltb in Erem. apply Z.ltb_ge in Erem.
      rewrite page_count_done by lia. simpl. rewrite app_nil_r, Nat.add_0_r. auto.
Qed.

End Pagination.
Section PageArithmetic.

Lemma map_seq_shift {A} (f : nat -> A) (n : nat) :
  forall a, map f (seq (S a) n) = map (fun i => f (S i)) (seq a n).
Proof.
  induction n as [|n IH]; intros a; simpl; [reflexivity|]. now rewrite IH.
Qed.

(** The batches add up to the number of items asked for. *)
Lemma batch_sizes_total (n : nat) :
  forall remaining, 0 <= remaining -> page_count remaining = n ->
                    total (batch_sizes remaining) = remaining.
Proof.
  unfold batch_sizes.
  induction n as [|n IH]; intros remaining Hpos Hn; rewrite Hn.
  - simpl. destruct (Z.eq_dec remaining 0) as [->|Hne]; [reflexivity|].
    rewrite page_count_step in Hn by lia. discriminate Hn.
  - assert (Hrem : 0 < remaining).
    { destruct (Z.eq_dec remaining 0) as [->|]; [discriminate Hn | lia]. }
    rewrite page_count_step in Hn by lia. injection Hn as Hn.
    cbn [seq map]. change (total (?x :: ?l)) with (x + total l).
    change (Z.of_nat 0) with 0.
    rewrite Z.mul_0_r, Z.sub_0_r. rewrite map_seq_shift.
    destruct (Z.le_gt_cases remaining 100) as [Hle|Hgt].
    + rewrite Z.min_l in Hn by lia.
      replace (remaining - remaining) with 0 in Hn by lia.
      change (page_count 0) with 0%nat in Hn. subst n. simpl. lia.
    + rewrite Z.min_r in Hn by lia. rewrite Z.min_r by lia.
      specialize (IH (remaining - 100) ltac:(lia) Hn). rewrite Hn in IH.
      rewrite (map_ext _ (fun i => Z.min (remaining - 100 - 100 * Z.of_nat i) 100))
        by (intros i; f_equal; lia).
      rewrite IH. lia.
Qed.

Lemma page_params_request (batch offset : Z) (w : World) :
  page_params (transactions_request batch offset w) = (Some batch, Some offset).
Proof. unfold page_params, transactions_request. simpl. by simplify_map_eq. Qed.

Lemma requests_of_pages (transport : nat -> outcome) (w : World) (limit : Z)
    (first_call : nat) (l : list nat) :
  requests_of (flat_map (page_events transport w 0 limit first_call) l)
    = map (fun i => transactions_request (Z.min (limit - 100 * Z.of_nat i) 100)
                                         (100 * Z.of_nat i) w) l.
Proof. induction l as [|i l IH]; simpl; [reflexivity | now rewrite IH]. Qed.

End PageArithmetic.

(** Whatever the transport does, the fuel [get_transactions] gives its
    loop is enough: the loop is left by its test or by an exception. *)
Lemma transactions_loop_fuel (transport : nat -> outcome) (fuel : nat) :
  forall offset remaining w,
    (Z.to_nat remaining <= fuel)%nat ->
    fst (transactions_loop transport fuel offset remaining w) <> Returned false.
Proof.
  induction fuel as [|fuel IH]; intros offset remaining w Hfuel; simpl.
  - replace (remaining >? 0) with false
      by (symmetry; rewrite Z.gtb_ltb; apply Z.ltb_ge; lia).
    discriminate.
  - destruct (remaining >? 0) eqn:Erem; [|discriminate].
    apply Z.gtb_lt in Erem. unfold bind.
    destruct (exchange transport _ _ w) as [[page|e] w1]; [|discriminate].
    apply IH. lia.
Qed.

Lemma get_transactions_ends (transport : nat -> outcome) (limit : Z) (w : World) :
  fst (get_transactions transport limit w) = Returned true \/
  exists e, fst (get_transactions transport limit w) = Raised e.
Proof.
  pose proof (transactions_loop_fuel transport (Z.to_nat limit) 0 limit w
                ltac:(lia)) as H.
  unfold get_transactions.
  destruct (fst (transactions_loop transport (Z.to_nat limit) 0 limit w))
    as [[|]|e]; [left; reflexivity | contradiction | right; eauto].
Qed.

(** C8.  When every request is answered with a page, [get_transactions]
    driven to its end leaves its loop by the test [remaining > 0]: page
    [i] is requested with [limit = min(limit - 100 i, 100)] and
    [offset = 100 i], and handed out before the next request is sent.
    There are as many requests as pages of 100 are needed, and for a limit
    that is not negative the batches add up to the limit, so that nothing
    remains.  A limit of 150 gives the two requests (100, 0) and
    (50, 100). *)
Theorem C8_pagination (transport : nat -> outcome) (limit : Z) (w : World) :
  (forall k, exists page, page_of (transport k) = Some page) ->
  let run := get_transactions transport limit w in
  fst run = Returned true /\
  trace (snd run)
    = (trace w ++
       flat_map (page_events transport w 0 limit (sent w))
                (seq 0 (page_count limit)))%list /\
  requests_of (trace (snd run))
    = (requests_of (trace w) ++ page_requests w limit)%list /\
  map page_params (page_requests w limit)
    = map (fun i => (Some (Z.min (limit - 100 * Z.of_nat i) 100),
                     Some (100 * Z.of_nat i)))
          (seq 0 (page_count limit)) /\
  (0 <= limit -> total (batch_sizes limit) = limit) /\
  (limit = 150 ->
   map page_params (page_requests w limit)
     = [(Some 100, Some 0); (Some 50, Some 100)]).
Proof.
  intros Hpages. cbn zeta. unfold get_transactions.
  destruct (transactions_loop_spec transport Hpages (Z.to_nat limit) 0 limit w
              ltac:(lia)) as (Hres & _ & _ & Htrace).
  assert (Hparams : map page_params (page_requests w limit)
                    = map (fun i => (Some (Z.min (limit - 100 * Z.of_nat i) 100),
                                     Some (100 * Z.of_nat i)))
                          (seq 0 (page_count limit))).
  { unfold page_requests. rewrite map_map. apply map_ext. intros i.
    apply page_params_request. }
  split; [exact Hres|]. split; [exact Htrace|]. split.
  { rewrite Htrace, requests_of_app, requests_of_pages. reflexivity. }
  split; [exact Hparams|]. split.
  { intros Hpos. now apply (batch_sizes_total (page_count limit)). }
  intros ->. rewrite Hparams. reflexivity.
Qed.

Lemma C8_pagination_witness :
  map page_params
      (requests_of
         (trace (snd (get_transactions Scenarios.always_ok 150 Scenarios.fresh_world))))
    = [(Some 100, Some 0); (Some 50, Some 100)] /\
  pages_of (trace (snd (get_transactions Scenarios.always_ok 150 Scenarios.fresh_world)))
    = [JArr []; JArr []].
Proof.
  pose proof (C8_pagination Scenarios.always_ok 150 Scenarios.fresh_world
                (fun k => ex_intro _ (JArr []) eq_refl)) as H.
  cbn zeta in H. destruct H as (_ & Htrace & Hreq & _ & _ & H150).
  split.
  - rewrite Hreq. exact (H150 eq_refl).
  - rewrite Htrace. reflexivity.
Defined.

(** ** Concurrent callers of [refresh_if_needed] *)

Section ThreadFacts.

Import Threads.

Local Open Scope list_scope.

Lemma insert_middle {A} (l1 l2 : list A) (x y : A) :
  <[List.length l1 := x]> (l1 ++ y :: l2) = (l1 ++ x :: l2)%list.
Proof.
  replace (List.length l1) with (List.length l1 + 0)%nat by lia.
  now rewrite insert_app_r.
Qed.

(** The two steps of a thread, taken without interruption, are one call of
    [_refresh_if_needed]. *)
Lemma uninterrupted_call (done rest : list pc) (w : World) :
  run [List.length done; List.length done] (done ++ AtTest :: rest) w
    = ((done ++ Finished (fst (_refresh_if_needed w)) :: rest)%list,
       snd (_refresh_if_needed w)).
Proof.
  unfold run, _refresh_if_needed.
  rewrite list_lookup_middle by reflexivity. cbn [thread_step].
  destruct (token_expired w).
  - rewrite insert_middle, list_lookup_middle by reflexivity. cbn [thread_step].
    destruct (refresh_access_token w) as [r w'].
    now rewrite insert_middle.
  - rewrite insert_middle, list_lookup_middle by reflexivity. cbn [thread_step].
    now rewrite insert_middle.
Qed.

Lemma run_app (s1 s2 : list nat) :
  forall pcs w,
    run (s1 ++ s2) pcs w = run s2 (fst (run s1 pcs w)) (snd (run s1 pcs w)).
Proof.
  induction s1 as [|i s1 IH]; intros pcs w; simpl; [reflexivity|].
  destruct (pcs !! i) as [p|]; [|apply IH].
  destruct (thread_step p w) as [p' w']. apply IH.
Qed.

(** A refresh that succeeds leaves a token that has not expired. *)
Lemma refreshed_not_expired (w : World) :
  truthy_text (refresh_token (broker w)) = true ->
  fst (refresh_access_token w) = Returned true /\
  token_expired (snd (refresh_access_token w)) = false /\
  refresh_calls (trace (snd (refresh_access_token w)))
    = S (refresh_calls (trace w)).
Proof.
  intros H. unfold refresh_access_token. simpl. rewrite H. simpl.
  split; [reflexivity|]. split.
  - unfold token_expired. simpl. apply andb_false_iff. right.
    unfold seconds. rewrite Z.geb_leb. apply Z.leb_gt. lia.
  - unfold refresh_calls. rewrite List.filter_app, length_app. simpl. lia.
Qed.

(** Callers that find a valid token return at once and change nothing. *)
Lemma callers_of_valid_token (n : nat) :
  forall (done : list pc) (w : World),
    token_expired w = false ->
    run (one_after_another (List.length done) n) (done ++ replicate n AtTest) w
      = ((done ++ replicate n (Finished (Returned true)))%list, w).
Proof.
  induction n as [|n IH]; intros done w Hvalid; [reflexivity|].
  change (one_after_another (List.length done) (S n))
    with ([List.length done; List.length done] ++ one_after_another (S (List.length done)) n)%list.
  rewrite run_app. cbn [replicate]. rewrite uninterrupted_call.
  unfold _refresh_if_needed. rewrite Hvalid. cbn [fst snd].
  specialize (IH (done ++ [Finished (Returned true)])%list w Hvalid).
  rewrite length_app, Nat.add_1_r, <- !app_assoc in IH. exact IH.
Qed.

(** Without interleaving the claim of C2 holds: when the callers run one
    after another, the first refreshes and the others find a valid token. *)
Lemma one_after_another_refresh_once (n : nat) (w : World) :
  token_expired w = true ->
  truthy_text (refresh_token (broker w)) = true ->
  fst (run (one_after_another 0 (S n)) (spawn (S n)) w)
    = replicate (S n) (Finished (Returned true)) /\
  refresh_calls (trace (snd (run (one_after_another 0 (S n)) (spawn (S n)) w)))
    = S (refresh_calls (trace w)).
Proof.
  intros Hexp Htok.
  change (one_after_another 0 (S n))
    with ([0; 0] ++ one_after_another 1 n)%nat%list.
  rewrite run_app. unfold spawn. cbn [replicate].
  pose proof (uninterrupted_call [] (replicate n AtTest) w) as Hfirst.
  cbn [List.length app] in Hfirst. rewrite Hfirst. cbn [fst snd].
  unfold _refresh_if_needed. rewrite Hexp.
  destruct (refreshed_not_expired w Htok) as (Hres & Hvalid & Hcalls).
  rewrite Hres.
  pose proof (callers_of_valid_token n [Finished (Returned true)] _ Hvalid) as Hrest.
  cbn [List.length app] in Hrest. rewrite Hrest. cbn [fst snd]. auto.
Qed.

Lemma all_test_first (n : nat) :
  forall (done : list pc) (w : World),
    token_expired w = true ->
    run (seq (List.length done) n) (done ++ replicate n AtTest) w
      = (done ++ replicate n AtRefresh, w).
Proof.
  induction n as [|n IH]; intros done w Hexp; [reflexivity|].
  cbn [seq replicate run].
  rewrite list_lookup_middle by reflexivity. cbn [thread_step].
  rewrite Hexp, insert_middle.
  specialize (IH (done ++ [AtRefresh]) w Hexp).
  rewrite length_app, Nat.add_1_r, <- !app_assoc in IH. exact IH.
Qed.

Lemma all_refresh (n : nat) :
  forall (done : list pc) (w : World),
    truthy_text (refresh_token (broker w)) = true ->
    fst (run (seq (List.length done) n) (done ++ replicate n AtRefresh) w)
      = done ++ replicate n (Finished (Returned true)) /\
    refresh_calls
      (trace (snd (run (seq (List.length done) n) (done ++ replicate n AtRefresh) w)))
      = (n + refresh_calls (trace w))%nat.
Proof.
  induction n as [|n IH]; intros done w Htok; [split; reflexivity|].
  cbn [seq replicate run].
  rewrite list_lookup_middle by reflexivity. cbn [thread_step].
  destruct (refreshed_not_expired w Htok) as (Hres & _ & Hcalls).
  assert (Htok' : truthy_text (refresh_token (broker (snd (refresh_access_token w))))
                  = true).
  { unfold refresh_access_token. simpl. rewrite Htok. exact Htok. }
  destruct (refresh_access_token w) as [r w']. cbn [fst snd] in *. subst r.
  rewrite insert_middle.
  specialize (IH (done ++ [Finished (Returned true)]) w' Htok').
  rewrite length_app, Nat.add_1_r, <- !app_assoc in IH.
  cbn [app] in IH.
  destruct IH as [IH1 IH2]. split; [exact IH1|]. rewrite IH2, Hcalls. lia.
Qed.

(** With interleaving any number of refreshes can be had: when all [n]
    callers evaluate the test before the first of them refreshes, each of
    them refreshes. *)
Lemma every_caller_refreshes (n : nat) (w : World) :
  token_expired w = true ->
  truthy_text (refresh_token (broker w)) = true ->
  fst (run (seq 0 n ++ seq 0 n) (spawn n) w)
    = replicate n (Finished (Returned true)) /\
  refresh_calls (trace (snd (run (seq 0 n ++ seq 0 n) (spawn n) w)))
    = (n + refresh_calls (trace w))%nat.
Proof.
  intros Hexp Htok. rewrite run_app.
  pose proof (all_test_first n [] w Hexp) as Htest.
  cbn [List.length app] in Htest. unfold spawn. rewrite Htest. cbn [fst snd].
  exact (all_refresh n [] w Htok).
Qed.

End ThreadFacts.

(** C2 is not what the code does.  Two callers find the token expired
    before either has refreshed it; each then calls [refresh_access_token].
    Both return [True], after two refreshes. *)
Theorem C2_two_callers_refresh_twice :
  token_expired Scenarios.stale_world = true /\
  fst (Threads.run [0; 1; 0; 1]%nat (Threads.spawn 2) Scenarios.stale_world)
    = [Threads.Finished (Returned true); Threads.Finished (Returned true)] /\
  refresh_calls
    (trace (snd (Threads.run [0; 1; 0; 1]%nat (Threads.spawn 2) Scenarios.stale_world)))
    = 2%nat.
Proof. repeat split. Qed.

(** * Further properties *)

(** ** The classifier, status by status *)

Section ClassifierCoverage.

Import Classifier.

(** X1.  Outside 403, 404 and 429 the status alone decides: 401 is an
    authentication error and every other status a plain API error,
    whatever the body and the headers hold; the error carries the
    message, the status and the response. *)
Theorem classified_by_status (r : response) (now : timestamp) :
  status_code r <> 403 -> status_code r <> 404 -> status_code r <> 429 ->
  _handle_http_error r now
    = broker_exc (if status_code r =? 401 then BrokerAuthenticationError
                  else BrokerAPIError)
                 (message_of r) (status_code r) r.
Proof.
  intros H403 H404 H429. unfold _handle_http_error.
  destruct (status_code r =? 401) eqn:E401; [reflexivity|].
  apply Z.eqb_neq in H403, H404, H429. rewrite H403, H404, H429.
  destruct (status_code r =? 400); [reflexivity|].
  destruct (status_code r >=? 500); reflexivity.
Qed.

Lemma classified_by_status_witness :
  _handle_http_error (Samples.refused 502 "bad gateway") 0
    = broker_exc BrokerAPIError (JStr "bad gateway") 502
                 (Samples.refused 502 "bad gateway").
Proof.
  apply (classified_by_status (Samples.refused 502 "bad gateway") 0); discriminate.
Defined.



End ClassifierCoverage.

(** ** The exception classes *)

(** X3.  [issubclass] orders the classes: it is reflexive, transitive and
    antisymmetric.  [BrokerError] is above exactly the six classes of
    [broker_errors.py], so [except BrokerError] catches every broker error
    and nothing else; and the four classes directly below it are
    unrelated, so that a clause for one never catches another. *)
Theorem class_hierarchy :
  (forall c, issubclass c c = true) /\
  (forall a b c, issubclass a b = true -> issubclass b c = true ->
                 issubclass a c = true) /\
  (forall a b, issubclass a b = true -> issubclass b a = true -> a = b) /\
  (forall c, issubclass c BrokerError = true <-> In c broker_classes) /\
  (forall c d,
     In c [BrokerAuthenticationError; BrokerRateLimitError; BrokerAPIError;
           BrokerNetworkError] ->
     In d [BrokerAuthenticationError; BrokerRateLimitError; BrokerAPIError;
           BrokerNetworkError] ->
     c <> d -> issubclass c d = false).
Proof.
  split; [intros []; reflexivity|].
  split; [intros [] [] []; simpl; intros H1 H2; solve [reflexivity | discriminate]|].
  split; [intros [] []; simpl; intros H1 H2; solve [reflexivity | discriminate]|].
  split.
  - intros c. unfold broker_classes. simpl. split.
    + destruct c; intros H; try discriminate H; tauto.
    + intros [<-|[<-|[<-|[<-|[<-|[<-|[]]]]]]]; reflexivity.
  - intros c d Hc Hd Hne. simpl in Hc, Hd.
    destruct Hc as [<-|[<-|[<-|[<-|[]]]]], Hd as [<-|[<-|[<-|[<-|[]]]]];
      solve [reflexivity | contradiction].
Qed.

Lemma class_hierarchy_witness :
  issubclass OrderValidationError BrokerError = true /\
  issubclass BrokerRateLimitError BrokerAuthenticationError = false.
Proof.
  destruct class_hierarchy as (_ & Htrans & _ & _ & Hsep). split.
  - apply (Htrans OrderValidationError BrokerAPIError BrokerError); reflexivity.
  - apply Hsep; simpl; [tauto | tauto | discriminate].
Defined.

(** ** What the request methods raise *)

Section FailureFacts.

Variable transport : nat -> outcome.
Variable read_float : float_reader.

Lemma rbind_raised {A B} (r : result A) (k : A -> result B) (e : exc) :
  rbind r k = Raised e ->
  r = Raised e \/ exists a, r = Returned a /\ k a = Raised e.
Proof. destruct r as [a|e']; simpl; [eauto | intros [= ->]; auto]. Qed.

Lemma get_or_raised (key : string) (dflt data : json) (e : exc) :
  get_or key dflt data = Raised e -> e = foreign_exc AttributeError.
Proof. destruct data; simpl; congruence. Qed.

Lemma py_float_raised (v : json) (e : exc) :
  py_float read_float v = Raised e ->
  e = foreign_exc ValueError \/ e = foreign_exc OverflowError \/
  e = foreign_exc TypeError.
Proof.
  destruct v; simpl; try (intros [= <-]; auto); try discriminate.
  - destruct (float_of_number read_float q); [discriminate | intros [= <-]; auto].
  - destruct (float_of_text read_float s); [discriminate | intros [= <-]; auto].
Qed.

Lemma get_float_raised (key : string) (data : json) (e : exc) :
  get_float read_float key data = Raised e -> exc_status e = None.
Proof.
  unfold get_float. intros H. apply rbind_raised in H as [H|(v & _ & H)].
  - apply get_or_raised in H. now subst.
  - apply py_float_raised in H as [->|[->| ->]]; reflexivity.
Qed.

Ltac parse_fails H :=
  repeat (apply rbind_raised in H as [H|(? & _ & H)];
          [first [apply get_or_raised in H; subst; reflexivity
                 | apply get_float_raised in H; exact H] |]);
  try discriminate H.

Lemma parse_position_raised (data : json) (e : exc) :
  _parse_position read_float data = Raised e -> exc_status e = None.
Proof. unfold _parse_position. intros H. parse_fails H. Qed.

Lemma parse_each_raised (items : list json) (e : exc) :
  parse_each read_float items = Raised e -> exc_status e = None.
Proof.
  induction items as [|p items IH]; simpl; [discriminate|]. intros H.
  apply rbind_raised in H as [H|(o & _ & H)];
    [now apply parse_position_raised in H|].
  apply rbind_raised in H as [H|(os & _ & H)]; [auto | discriminate H].
Qed.

Lemma parse_positions_raised (j : json) (e : exc) :
  _parse_positions read_float j = Raised e -> exc_status e = None.
Proof.
  destruct j; simpl; try (intros [= <-]; reflexivity); apply parse_each_raised.
Qed.

Lemma parse_asset_raised (data : json) (e : exc) :
  _parse_asset data = Raised e -> exc_status e = None.
Proof. unfold _parse_asset. intros H. parse_fails H. Qed.

Lemma parse_order_raised (data : json) (e : exc) :
  _parse_order read_float data = Raised e -> exc_status e = None.
Proof. unfold _parse_order. intros H. parse_fails H. Qed.

Lemma parse_order_status_raised (data : json) (e : exc) :
  _parse_order_status read_float data = Raised e -> exc_status e = None.
Proof. unfold _parse_order_status. intros H. parse_fails H. Qed.

(** What the classifier raises carries the status and the response, or no
    status at all. *)
Lemma classifier_attributes (r : response) (now : timestamp) :
  (isinstance (Classifier._handle_http_error r now) BrokerError = true /\
   exc_status (Classifier._handle_http_error r now) = Some (status_code r) /\
   exc_response (Classifier._handle_http_error r now) = Some r) \/
  exc_status (Classifier._handle_http_error r now) = None.
Proof.
  unfold Classifier._handle_http_error.
  repeat match goal with
         | |- context [if ?b then _ else _] => destruct b
         | |- context [match ?x with _ => _ end] => destruct x
         end; simpl; auto.
Qed.

(** What one exchange raises with a status code comes from the classifier
    and is about a response that [raise_for_status] refused. *)
Lemma exchange_result_status (o : outcome) (msg : string) (now : timestamp)
    (e : exc) (s : Z) :
  exchange_result o msg now = Raised e -> exc_status e = Some s ->
  400 <= s < 600 /\ isinstance e BrokerError = true /\
  exists r, o = Responded r /\ exc_response e = Some r /\ status_code r = s.
Proof.
  destruct o as [r|[]]; simpl; try (intros [= <-]; discriminate).
  destruct (is_http_error r) eqn:Eerr;
    [|destruct (resp_json r); [discriminate | intros [= <-]; discriminate]].
  intros [= <-] Hs.
  destruct (classifier_attributes r now) as [(Hcls & Hst & Hresp)|Hnone];
    [|congruence].
  rewrite Hst in Hs. injection Hs as <-.
  unfold is_http_error in Eerr. apply andb_true_iff in Eerr as [H1 H2].
  apply Z.leb_le in H1. apply Z.ltb_lt in H2.
  split; [lia|]. split; [exact Hcls|]. exists r. auto.
Qed.

(** A method that is one exchange followed by parsing raises what the
    exchange raises, or what the parser raises. *)
Lemma exchange_then_parse_failure {A} (q : request) (msg : string)
    (parse : json -> result A) (w : World) (e : exc) :
  failure (fst (bind (exchange transport q msg) (fun j => lift (parse j)) w)) = Some e ->
  exchange_result (transport (sent w)) msg (clock w) = Raised e \/
  exists j, parse j = Raised e.
Proof.
  unfold bind, lift. rewrite exchange_unfold.
  destruct (exchange_result _ _ _) as [j|e']; simpl.
  - destruct (parse j) eqn:E; simpl; [discriminate | intros [= <-]; eauto].
  - intros [= <-]. auto.
Qed.

Lemma exchange_then_parse_raises {A} (q : request) (msg : string)
    (parse : json -> result A) (w : World) (e : exc) :
  exchange_result (transport (sent w)) msg (clock w) = Raised e ->
  fst (bind (exchange transport q msg) (fun j => lift (parse j)) w) = Raised e.
Proof. intros H. unfold bind, lift. rewrite exchange_unfold, H. reflexivity. Qed.

Lemma transactions_loop_failure (fuel : nat) :
  forall offset remaining w e,
    failure (fst (transactions_loop transport fuel offset remaining w)) = Some e ->
    exists k now, exchange_result (transport k) "Request timed out" now = Raised e.
Proof.
  induction fuel as [|fuel IH]; intros offset remaining w e; simpl;
    destruct (remaining >? 0); try discriminate.
  unfold bind. rewrite exchange_unfold.
  destruct (exchange_result _ _ _) as [page|e'] eqn:E; simpl.
  - apply IH.
  - intros [= <-]. eauto.
Qed.

End FailureFacts.

(** X4.  Every status code that an exception raised by a request
    operation carries lies in 400..599 and is the status of the response
    it carries, and the exception is a broker error.  Network errors and
    the exceptions that escape from parsing carry no status. *)
Theorem failure_status_in_range (transport : nat -> outcome)
    (read_float : float_reader) (op : operation) (w : World) (e : exc) (s : Z) :
  operation_failure transport read_float op w = Some e ->
  exc_status e = Some s ->
  400 <= s < 600 /\ isinstance e BrokerError = true /\
  exists r, exc_response e = Some r /\ status_code r = s.
Proof.
  intros Hfail Hs.
  assert (Hex : (exists k msg now, exchange_result (transport k) msg now = Raised e) \/
                exc_status e = None).
  { destruct op; simpl in Hfail.
    - unfold get_account in Hfail. rewrite exchange_unfold in Hfail.
      simpl in Hfail. destruct (exchange_result _ _ _) eqn:E; [discriminate|].
      injection Hfail as <-. left. eauto.
    - apply exchange_then_parse_failure in Hfail as [H|[j H]]; [left; eauto|].
      right. eapply parse_positions_raised; eauto.
    - apply transactions_loop_failure in Hfail as (k & now & H). left. eauto.
    - apply exchange_then_parse_failure in Hfail as [H|[j H]]; [left; eauto|].
      right. eapply parse_asset_raised; eauto.
    - apply exchange_then_parse_failure in Hfail as [H|[j H]]; [left; eauto|].
      right. eapply parse_order_raised; eauto.
    - apply exchange_then_parse_failure in Hfail as [H|[j H]]; [left; eauto|].
      right. eapply parse_order_status_raised; eauto.
    - apply exchange_then_parse_failure in Hfail as [H|[j H]]; [left; eauto|].
      right. apply rbind_raised in H as [H|(st & _ & H)]; [|discriminate H].
      apply get_or_raised in H. now subst. }
  destruct Hex as [(k & msg & now & H)|H]; [|congruence].
  destruct (exchange_result_status _ _ _ _ _ H Hs) as (Hr & Hc & r & _ & Hresp & Hst).
  eauto.
Qed.

Lemma failure_status_in_range_witness :
  400 <= 401 < 600 /\
  isinstance (broker_exc BrokerAuthenticationError (JStr "Invalid or expired token")
                         401 (Samples.refused 401 "Invalid or expired token"))
             BrokerError = true.
Proof.
  destruct (failure_status_in_range Scenarios.always_unauthorized Samples.no_floats
              (OpPlaceOrder Samples.market_order) Scenarios.fresh_world
              (broker_exc BrokerAuthenticationError (JStr "Invalid or expired token")
                          401 (Samples.refused 401 "Invalid or expired token"))
              401 eq_refl eq_refl) as (H1 & H2 & _).
  split; [exact H1 | exact H2].
Defined.

(** ** Network failures *)

(** X5.  When the transport times out or cannot connect, an operation that
    sends a request raises [BrokerNetworkError] with the text of its
    [except] clause and the transport's failure as its cause, and it has
    sent exactly one request: nothing is retried. *)
Theorem network_failure_surfaces (transport : nat -> outcome)
    (read_float : float_reader) (op : operation) (w : World) :
  issues_request op = true ->
  (transport (sent w) = Failed Timeout ->
   operation_failure transport read_float op w
     = Some (network_exc (timeout_text op) Timeout)) /\
  (transport (sent w) = Failed ConnectionError ->
   operation_failure transport read_float op w
     = Some (network_exc "Failed to connect" ConnectionError)) /\
  (forall f, transport (sent w) = Failed f ->
             sent (run_operation transport read_float op w) = S (sent w)).
Proof.
  intros Hop.
  assert (Hone : forall f msg, transport (sent w) = Failed f ->
                 exchange_result (transport (sent w)) msg (clock w)
                   = match f with
                     | Timeout => Raised (network_exc msg Timeout)
                     | ConnectionError =>
                         Raised (network_exc "Failed to connect" ConnectionError)
                     | OtherRequestException => Raised (foreign_exc RequestException)
                     end).
  { intros f msg ->. destruct f; reflexivity. }
  destruct op; simpl in *;
    unfold get_account, get_positions, get_asset, place_order,
           get_order_status, cancel_order, get_transactions.
  1,2,4,5,6,7:
    (repeat split;
     [ intros H; first [ rewrite exchange_unfold; simpl; now rewrite (Hone _ _ H)
                       | erewrite exchange_then_parse_raises;
                         [reflexivity | now rewrite (Hone _ _ H)] ]
     | intros H; first [ rewrite exchange_unfold; simpl; now rewrite (Hone _ _ H)
                       | erewrite exchange_then_parse_raises;
                         [reflexivity | now rewrite (Hone _ _ H)] ]
     | intros f H; rewrite ?exchange_then_parse; now rewrite exchange_unfold ]).
  (* the paginator: the first page is asked for and the failure ends it *)
  apply Z.ltb_lt in Hop.
  destruct (Z.to_nat limit) as [|fuel] eqn:Efuel; [lia|]. simpl.
  replace (limit >? 0) with true by (symmetry; apply Z.gtb_lt; lia).
  unfold bind. rewrite exchange_unfold.
  repeat split.
  - intros H. now rewrite (Hone _ _ H).
  - intros H. now rewrite (Hone _ _ H).
  - intros f H. rewrite (Hone _ _ H). destruct f; reflexivity.
Qed.

Lemma network_failure_surfaces_witness :
  operation_failure (fun _ => Failed Timeout) Samples.no_floats
                    (OpPlaceOrder Samples.market_order) Scenarios.fresh_world
    = Some (network_exc "Connection timed out after 30 seconds" Timeout) /\
  sent (run_operation (fun _ => Failed Timeout) Samples.no_floats
                      (OpPlaceOrder Samples.market_order) Scenarios.fresh_world)
    = 1%nat.
Proof.
  destruct (network_failure_surfaces (fun _ => Failed Timeout) Samples.no_floats
              (OpPlaceOrder Samples.market_order) Scenarios.fresh_world eq_refl)
    as (Htimeout & _ & Hsent).
  split; [exact (Htimeout eq_refl) | exact (Hsent Timeout eq_refl)].
Defined.

(** X6.  Neither wrapper reacts to a network failure: when the first
    attempt times out or cannot connect, [get_account_with_retry] and
    [place_order_with_auto_refresh] raise the [BrokerNetworkError] of that
    attempt, having sent one request, slept not at all and refreshed
    nothing. *)
Theorem wrappers_pass_network_failure (transport : nat -> outcome)
    (read_float : float_reader) (a : order_args) (max_retries : Z) (w : World)
    (f : transport_failure) :
  1 <= max_retries ->
  transport (sent w) = Failed f ->
  f <> OtherRequestException ->
  (exists e,
     fst (get_account_with_retry transport max_retries w) = Raised e /\
     exc_cls e = BrokerNetworkError /\ exc_cause e = Some f) /\
  trace (snd (get_account_with_retry transport max_retries w))
    = (trace w ++ [EvRequest (simple_request GET "/account" w)])%list /\
  (exists e,
     fst (place_order_with_auto_refresh transport read_float a w) = Raised e /\
     exc_cls e = BrokerNetworkError /\ exc_cause e = Some f) /\
  trace (snd (place_order_with_auto_refresh transport read_float a w))
    = (trace w ++ [EvRequest (order_request a w)])%list.
Proof.
  intros Hmax Hf Hother.
  assert (Hclass : forall msg now,
            exists e, exchange_result (Failed f) msg now = Raised e /\
                      exc_cls e = BrokerNetworkError /\ exc_cause e = Some f).
  { intros msg now. destruct f; [| |contradiction]; simpl; eauto. }
  split; [|split; [|split]].
  - unfold get_account_with_retry.
    destruct (Z.to_nat max_retries) as [|todo] eqn:E; [lia|].
    cbn [retry_loop]. unfold try_except, bind, ret.
    rewrite get_account_unfold, Hf.
    destruct (Hclass "Request timed out" (clock w)) as (e & -> & Hc & Hcause).
    unfold isinstance. rewrite Hc. simpl. eauto.
  - unfold get_account_with_retry.
    destruct (Z.to_nat max_retries) as [|todo] eqn:E; [lia|].
    cbn [retry_loop]. unfold try_except, bind, ret.
    rewrite get_account_unfold, Hf.
    destruct (Hclass "Request timed out" (clock w)) as (e & -> & Hc & Hcause).
    unfold isinstance. rewrite Hc. reflexivity.
  - unfold place_order_with_auto_refresh, try_except.
    rewrite place_order_unfold, Hf.
    destruct (Hclass "Connection timed out after 30 seconds" (clock w))
      as (e & -> & Hc & Hcause).
    simpl. unfold isinstance. rewrite Hc. simpl. eauto.
  - unfold place_order_with_auto_refresh, try_except.
    rewrite place_order_unfold, Hf.
    destruct (Hclass "Connection timed out after 30 seconds" (clock w))
      as (e & -> & Hc & Hcause).
    simpl. unfold isinstance. rewrite Hc. reflexivity.
Qed.

Lemma wrappers_pass_network_failure_witness :
  trace (snd (get_account_with_retry (fun _ => Failed ConnectionError) 5
                Scenarios.fresh_world))
    = [EvRequest (simple_request GET "/account" Scenarios.fresh_world)] /\
  trace (snd (place_order_with_auto_refresh (fun _ => Failed ConnectionError)
                Samples.no_floats Samples.market_order Scenarios.stale_world))
    = [EvRequest (order_request Samples.market_order Scenarios.stale_world)].
Proof.
  destruct (wrappers_pass_network_failure (fun _ => Failed ConnectionError)
              Samples.no_floats Samples.market_order 5 Scenarios.fresh_world
              ConnectionError ltac:(lia) eq_refl ltac:(discriminate))
    as (_ & H1 & _ & _).
  destruct (wrappers_pass_network_failure (fun _ => Failed ConnectionError)
              Samples.no_floats Samples.market_order 5 Scenarios.stale_world
              ConnectionError ltac:(lia) eq_refl ltac:(discriminate))
    as (_ & _ & _ & H2).
  split; [exact H1 | exact H2].
Defined.

(** ** The life of a token *)

Section TokenFacts.

Lemma not_expired_noop (w : World) :
  token_expired w = false -> _refresh_if_needed w = (Returned true, w).
Proof. intros H. unfold _refresh_if_needed. now rewrite H. Qed.

End TokenFacts.

(** X7.  [authenticate] always succeeds and stores the two tokens made from
    the code.  From then on [_refresh_if_needed] does nothing until 3600
    seconds have passed on the clock, and after that it refreshes, from
    the refresh token that [authenticate] stored. *)
Theorem authenticate_then_refresh (auth_code : string) (w w2 : World) :
  broker w2 = broker (snd (authenticate auth_code w)) ->
  fst (authenticate auth_code w) = Returned true /\
  access_token (broker w2) = Some ("access_token_" ++ auth_code) /\
  refresh_token (broker w2) = Some ("refresh_token_" ++ auth_code) /\
  (clock w2 < clock w + seconds 3600 ->
   _refresh_if_needed w2 = (Returned true, w2)) /\
  (clock w + seconds 3600 <= clock w2 -> clock w + seconds 3600 <> 0 ->
   fst (_refresh_if_needed w2) = Returned true /\
   refresh_calls (trace (snd (_refresh_if_needed w2))) = S (refresh_calls (trace w2)) /\
   access_token (broker (snd (_refresh_if_needed w2)))
     = Some ("refreshed_token_" ++ ("refresh_token_" ++ auth_code)) /\
   token_expires_at (broker (snd (_refresh_if_needed w2)))
     = Some (clock w2 + seconds 3600)).
Proof.
  intros Hb. simpl in Hb.
  split; [reflexivity|]. split; [now rewrite Hb|]. split; [now rewrite Hb|].
  assert (Htok : truthy_text (refresh_token (broker w2)) = true).
  { rewrite Hb. reflexivity. }
  split.
  - intros Hearly. apply not_expired_noop. unfold token_expired. rewrite Hb. simpl.
    apply andb_false_iff. right. rewrite Z.geb_leb. apply Z.leb_gt. lia.
  - intros Hlate Hnz.
    assert (Hexp : token_expired w2 = true).
    { unfold token_expired. rewrite Hb. simpl. apply andb_true_iff. split.
      - apply negb_true_iff. now apply Z.eqb_neq.
      - rewrite Z.geb_leb. apply Z.leb_le. lia. }
    unfold _refresh_if_needed. rewrite Hexp.
    destruct (refreshed_not_expired w2 Htok) as (Hres & _ & Hcalls).
    split; [exact Hres|]. split; [exact Hcalls|].
    rewrite (refresh_succeeds w2 Htok). simpl. rewrite Hb. simpl. auto.
Qed.

Lemma authenticate_then_refresh_witness :
  _refresh_if_needed
    (mkWorld (broker (snd (authenticate "abc" Scenarios.fresh_world)))
             (seconds 3599) 0 [])
    = (Returned true,
       mkWorld (broker (snd (authenticate "abc" Scenarios.fresh_world)))
               (seconds 3599) 0 []) /\
  refresh_calls
    (trace (snd (_refresh_if_needed
                   (mkWorld (broker (snd (authenticate "abc" Scenarios.fresh_world)))
                            (seconds 3600) 0 []))))
    = 1%nat.
Proof.
  split.
  - destruct (authenticate_then_refresh "abc" Scenarios.fresh_world
                (mkWorld (broker (snd (authenticate "abc" Scenarios.fresh_world)))
                         (seconds 3599) 0 []) eq_refl)
      as (_ & _ & _ & Hearly & _).
    apply Hearly. vm_compute. reflexivity.
  - destruct (authenticate_then_refresh "abc" Scenarios.fresh_world
                (mkWorld (broker (snd (authenticate "abc" Scenarios.fresh_world)))
                         (seconds 3600) 0 []) eq_refl)
      as (_ & _ & _ & _ & Hlate).
    destruct Hlate as (_ & Hcalls & _); [vm_compute; discriminate | discriminate |].
    exact Hcalls.
Defined.

(** X8.  [_refresh_if_needed] never returns [False].  It does nothing and
    returns [True] when no expiry is set (or the expiry is 0) whatever the
    clock reads, and when the expiry lies ahead; when the token has
    expired it returns [True] after one refresh if a refresh token is
    stored, and otherwise raises the authentication error of
    [refresh_access_token]. *)
Theorem refresh_if_needed_outcomes (w : World) :
  (forall b w', _refresh_if_needed w = (Returned b, w') -> b = true) /\
  (truthy_time (token_expires_at (broker w)) = false ->
   _refresh_if_needed w = (Returned true, w)) /\
  (forall t, token_expires_at (broker w) = Some t -> clock w < t ->
             _refresh_if_needed w = (Returned true, w)) /\
  (token_expired w = true ->
   if truthy_text (refresh_token (broker w))
   then fst (_refresh_if_needed w) = Returned true /\
        token_expired (snd (_refresh_if_needed w)) = false /\
        refresh_calls (trace (snd (_refresh_if_needed w)))
          = S (refresh_calls (trace w))
   else _refresh_if_needed w = (Raised no_refresh_token, log EvRefresh w)).
Proof.
  split; [|split; [|split]].
  - intros b w'. unfold _refresh_if_needed, refresh_access_token.
    destruct (token_expired w); [|congruence]. simpl.
    destruct (truthy_text (refresh_token (broker w))); simpl; congruence.
  - intros H. apply not_expired_noop. unfold token_expired. now rewrite H.
  - intros t Ht Hlt. apply not_expired_noop. unfold token_expired. rewrite Ht.
    apply andb_false_iff. right. rewrite Z.geb_leb. apply Z.leb_gt. lia.
  - intros Hexp. unfold _refresh_if_needed. rewrite Hexp.
    destruct (truthy_text (refresh_token (broker w))) eqn:Htok.
    + exact (refreshed_not_expired w Htok).
    + unfold refresh_access_token. simpl. now rewrite Htok.
Qed.

Lemma refresh_if_needed_outcomes_witness :
  _refresh_if_needed Scenarios.fresh_world = (Returned true, Scenarios.fresh_world) /\
  token_expired (snd (_refresh_if_needed Scenarios.stale_world)) = false.
Proof.
  split.
  - destruct (refresh_if_needed_outcomes Scenarios.fresh_world) as (_ & H & _).
    exact (H eq_refl).
  - destruct (refresh_if_needed_outcomes Scenarios.stale_world) as (_ & _ & _ & H).
    destruct (H eq_refl) as (_ & Hvalid & _). exact Hvalid.
Defined.

(** X9.  Calling [_refresh_if_needed] again right after it has returned
    does nothing: two calls in a row refresh at most once. *)
Theorem refresh_if_needed_idempotent (w w1 : World) (b : bool) :
  _refresh_if_needed w = (Returned b, w1) ->
  _refresh_if_needed w1 = (Returned true, w1).
Proof.
  intros H. apply not_expired_noop. revert H. unfold _refresh_if_needed.
  destruct (token_expired w) eqn:Hexp; [|now intros [= _ <-]].
  destruct (truthy_text (refresh_token (broker w))) eqn:Htok.
  - destruct (refreshed_not_expired w Htok) as (_ & Hvalid & _).
    intros H. now rewrite H in Hvalid.
  - unfold refresh_access_token. simpl. rewrite Htok. discriminate.
Qed.

Lemma refresh_if_needed_idempotent_witness :
  _refresh_if_needed (snd (_refresh_if_needed Scenarios.stale_world))
    = (Returned true, snd (_refresh_if_needed Scenarios.stale_world)).
Proof.
  apply (refresh_if_needed_idempotent Scenarios.stale_world _ true). reflexivity.
Defined.

(** ** Callers in turn *)

(** X21.  When any number of callers of [refresh_if_needed] run one after
    another on an expired token with a refresh token stored, every one of
    them returns [True], [refresh_access_token] is called exactly once, by
    the first, and the token they leave has not expired. *)
Theorem callers_in_turn_refresh_once (n : nat) (w : World) :
  token_expired w = true ->
  truthy_text (refresh_token (broker w)) = true ->
  fst (Threads.run (Threads.one_after_another 0 (S n)) (Threads.spawn (S n)) w)
    = replicate (S n) (Threads.Finished (Returned true)) /\
  refresh_calls
    (trace (snd (Threads.run (Threads.one_after_another 0 (S n))
                             (Threads.spawn (S n)) w)))
    = S (refresh_calls (trace w)) /\
  token_expired
    (snd (Threads.run (Threads.one_after_another 0 (S n)) (Threads.spawn (S n)) w))
    = false.
Proof.
  intros Hexp Htok.
  change (Threads.one_after_another 0 (S n))
    with ([0; 0] ++ Threads.one_after_another 1 n)%nat%list.
  rewrite run_app. unfold Threads.spawn. cbn [replicate].
  pose proof (uninterrupted_call [] (replicate n Threads.AtTest) w) as Hfirst.
  cbn [List.length app] in Hfirst. rewrite Hfirst. cbn [fst snd].
  unfold _refresh_if_needed. rewrite Hexp.
  destruct (refreshed_not_expired w Htok) as (Hres & Hvalid & Hcalls).
  rewrite Hres.
  pose proof (callers_of_valid_token n [Threads.Finished (Returned true)] _ Hvalid)
    as Hrest.
  cbn [List.length app] in Hrest. rewrite Hrest. cbn [fst snd]. auto.
Qed.

Lemma callers_in_turn_refresh_once_witness :
  fst (Threads.run (Threads.one_after_another 0 3) (Threads.spawn 3) Scenarios.stale_world)
    = replicate 3 (Threads.Finished (Returned true)) /\
  refresh_calls
    (trace (snd (Threads.run (Threads.one_after_another 0 3) (Threads.spawn 3)
                             Scenarios.stale_world)))
    = 1%nat.
Proof.
  destruct (callers_in_turn_refresh_once 2 Scenarios.stale_world eq_refl eq_refl)
    as (H1 & H2 & _).
  split; [exact H1 | exact H2].
Defined.

(** ** The headers on the wire *)

Section HeaderFacts.

Variable transport : nat -> outcome.
Variable read_float : float_reader.

Lemma requests_carry_app (hdrs : gmap string string) (evs1 evs2 : list event) :
  requests_carry hdrs evs1 -> requests_carry hdrs evs2 ->
  requests_carry hdrs (evs1 ++ evs2).
Proof.
  unfold requests_carry. rewrite requests_of_app. intros H1 H2.
  apply Forall_app. auto.
Qed.

Lemma exchange_carries (q : request) (msg : string) (w : World) :
  req_headers q = headers (broker w) ->
  exists evs, trace (snd (exchange transport q msg w)) = (trace w ++ evs)%list /\
              requests_carry (headers (broker w)) evs.
Proof.
  intros Hq. rewrite exchange_unfold. exists [EvRequest q]. split; [reflexivity|].
  unfold requests_carry. simpl. auto.
Qed.

Lemma transactions_loop_carries (fuel : nat) :
  forall offset remaining w,
    exists evs,
      trace (snd (transactions_loop transport fuel offset remaining w))
        = (trace w ++ evs)%list /\
      requests_carry (headers (broker w)) evs.
Proof.
  induction fuel as [|fuel IH]; intros offset remaining w; simpl;
    destruct (remaining >? 0);
    try (exists []; split; [now rewrite app_nil_r | constructor]).
  unfold bind. rewrite exchange_unfold.
  destruct (exchange_result _ _ _) as [page|e].
  - set (w1 := log (EvYield page) _).
    destruct (IH (offset + Z.min remaining 100) (remaining - Z.min remaining 100) w1)
      as (evs & Htrace & Hcarry).
    exists ([EvRequest (transactions_request (Z.min remaining 100) offset w);
             EvYield page] ++ evs)%list.
    split.
    + rewrite Htrace. subst w1. simpl. now rewrite <- !app_assoc.
    + apply requests_carry_app; [|exact Hcarry].
      unfold requests_carry. simpl. auto.
  - exists [EvRequest (transactions_request (Z.min remaining 100) offset w)].
    split; [reflexivity|]. unfold requests_carry. simpl. auto.
Qed.

End HeaderFacts.

(** X10.  Every request of every operation carries exactly the headers
    stored on the broker, and neither [authenticate] nor
    [refresh_access_token] nor [_refresh_if_needed] changes those headers:
    a new access token reaches no request unless the caller puts it into
    [headers]. *)
Theorem requests_carry_stored_headers (transport : nat -> outcome)
    (read_float : float_reader) (op : operation) (auth_code : string) (w : World) :
  (exists evs,
     trace (run_operation transport read_float op w) = (trace w ++ evs)%list /\
     requests_carry (headers (broker w)) evs) /\
  headers (broker (snd (authenticate auth_code w))) = headers (broker w) /\
  headers (broker (snd (refresh_access_token w))) = headers (broker w) /\
  headers (broker (snd (_refresh_if_needed w))) = headers (broker w).
Proof.
  assert (Hrefresh : headers (broker (snd (refresh_access_token w)))
                     = headers (broker w)).
  { unfold refresh_access_token. simpl.
    destruct (truthy_text (refresh_token (broker w))); reflexivity. }
  split; [|split; [reflexivity|split; [exact Hrefresh|]]].
  - destruct op; simpl;
      unfold get_account, get_positions, get_asset, place_order,
             get_order_status, cancel_order, get_transactions;
      rewrite ?exchange_then_parse;
      first [now apply exchange_carries | apply transactions_loop_carries].
  - unfold _refresh_if_needed. destruct (token_expired w); [exact Hrefresh | reflexivity].
Qed.

(** ** Back-off *)

Section BackoffFacts.

Variable transport : nat -> outcome.

Lemma backoff_range (i : nat) :
  1 <= backoff i <= 60 /\
  ((i <= 5)%nat -> backoff i = 2 ^ Z.of_nat i) /\
  ((6 <= i)%nat -> backoff i = 60).
Proof.
  unfold backoff.
  assert (Hpos : 1 <= 2 ^ Z.of_nat i).
  { change 1 with (2 ^ 0). apply Z.pow_le_mono_r; lia. }
  split; [lia|]. split.
  - intros Hi. apply Z.min_l.
    transitivity (2 ^ 5); [apply Z.pow_le_mono_r; lia | vm_compute; discriminate].
  - intros Hi. apply Z.min_r.
    transitivity (2 ^ 6); [vm_compute; discriminate | apply Z.pow_le_mono_r; lia].
Qed.

Lemma sleeps_of_retry_events (q : request) (n : nat) :
  forall a, sleeps_of (retry_events q a n) = map backoff (seq a (n - 1)).
Proof.
  destruct n as [|n]; [reflexivity|]. simpl. rewrite Nat.sub_0_r.
  induction n as [|n IH]; intros a; simpl; [reflexivity|]. now rewrite IH.
Qed.

End BackoffFacts.

(** X11.  The waits that [get_account_with_retry] asks of [time.sleep]
    are 1, 2, 4, 8, 16, 32 and then 60 seconds each, in this order: each
    lies between 1 and 60, there are fewer of them than [max_retries], and
    they add up to at most [60 (max_retries - 1)] seconds. *)
Theorem retry_sleeps_bounded (transport : nat -> outcome) (max_retries : Z)
    (w : World) :
  1 <= max_retries ->
  exists evs,
    trace (snd (get_account_with_retry transport max_retries w))
      = (trace w ++ evs)%list /\
    sleeps_of evs = map backoff (seq 0 (List.length (sleeps_of evs))) /\
    Forall (fun s => 1 <= s <= 60) (sleeps_of evs) /\
    Z.of_nat (List.length (sleeps_of evs)) < max_retries /\
    total (sleeps_of evs) <= 60 * (max_retries - 1).
Proof.
  intros Hmax. unfold get_account_with_retry.
  destruct (retry_loop_spec transport (Z.to_nat max_retries) 0 w ltac:(lia))
    as (n & Hn & _ & Htrace & _).
  cbn zeta in Htrace.
  replace (Z.of_nat (0 + Z.to_nat max_retries)) with max_retries in Htrace by lia.
  change (Z.of_nat 0) with 0 in Htrace.
  exists (retry_events (simple_request GET "/account" w) 0 n).
  rewrite sleeps_of_retry_events, length_map, length_seq.
  assert (Hall : Forall (fun s => 1 <= s <= 60) (map backoff (seq 0 (n - 1)))).
  { apply Forall_map, Forall_forall. intros i _. apply backoff_range. }
  split; [exact Htrace|]. split; [reflexivity|]. split; [exact Hall|].
  split; [lia|].
  assert (Hsum : forall l, Forall (fun s => 1 <= s <= 60) l ->
                           total l <= 60 * Z.of_nat (List.length l)).
  { induction 1 as [|x l Hx _ IH]; simpl; lia. }
  specialize (Hsum _ Hall). rewrite length_map, length_seq in Hsum. lia.
Qed.

Lemma retry_sleeps_bounded_witness :
  total (sleeps_of
           (trace (snd (get_account_with_retry Scenarios.limited_twice 3
                          Scenarios.fresh_world)))) <= 120.
Proof.
  destruct (retry_sleeps_bounded Scenarios.limited_twice 3 Scenarios.fresh_world
              ltac:(lia)) as (evs & Htrace & _ & _ & _ & Htotal).
  change (trace Scenarios.fresh_world ++ evs)%list with evs in Htrace.
  rewrite Htrace. exact Htotal.
Defined.

(** ** The paginator under failure *)

Section PaginationFailure.

Variable transport : nat -> outcome.

Lemma no_page_raises (o : outcome) (msg : string) (now : timestamp) :
  page_of o = None -> exists e, exchange_result o msg now = Raised e.
Proof.
  destruct o as [r|[]]; simpl; eauto.
  destruct (is_http_error r); [eauto|]. intros ->. eauto.
Qed.

Lemma page_count_positive (remaining : Z) :
  (0 < page_count remaining)%nat -> 0 < remaining.
Proof.
  intros H. destruct (Z.le_gt_cases remaining 0) as [Hle|]; [|lia].
  rewrite page_count_done in H by lia. lia.
Qed.

Lemma transactions_loop_stops (k : nat) :
  forall (fuel : nat) (offset remaining : Z) (w : World),
    (Z.to_nat remaining <= fuel)%nat ->
    (k < page_count remaining)%nat ->
    (forall i, (i < k)%nat -> exists page, page_of (transport (sent w + i)%nat) = Some page) ->
    page_of (transport (sent w + k)%nat) = None ->
    let run := transactions_loop transport fuel offset remaining w in
    fst run = match exchange_result (transport (sent w + k)%nat)
                                    "Request timed out" (clock w) with
              | Raised e => Raised e
              | Returned _ => Returned true
              end /\
    sent (snd run) = (sent w + S k)%nat /\
    trace (snd run)
      = (trace w ++
         flat_map (page_events transport w offset remaining (sent w)) (seq 0 k) ++
         [EvRequest (transactions_request
                       (Z.min (remaining - 100 * Z.of_nat k) 100)
                       (offset + 100 * Z.of_nat k) w)])%list.
Proof.
  induction k as [|k IH]; intros fuel offset remaining w Hfuel Hk Hpages Hfail;
    cbn zeta; pose proof (page_count_positive remaining ltac:(lia)) as Hrem;
    (destruct fuel as [|fuel]; [lia|]); simpl transactions_loop;
    replace (remaining >? 0) with true by (symmetry; apply Z.gtb_lt; lia);
    unfold bind; rewrite exchange_unfold.
  - rewrite Nat.add_0_r in *.
    destruct (no_page_raises _ "Request timed out" (clock w) Hfail) as [e He].
    rewrite He. simpl.
    change (Z.of_nat 0) with 0. rewrite Z.mul_0_r, Z.sub_0_r, Z.add_0_r.
    split; [reflexivity|]. split; [lia | reflexivity].
  - destruct (Hpages 0%nat ltac:(lia)) as [page Hpage].
    rewrite Nat.add_0_r in Hpage. rewrite (page_exchange _ _ _ _ Hpage).
    rewrite (page_count_step remaining Hrem) in Hk.
    assert (Hk' : (k < page_count (remaining - Z.min remaining 100))%nat) by lia.
    assert (Hmany : 100 < remaining).
    { destruct (Z.le_gt_cases remaining 100) as [Hle|]; [|lia].
      rewrite Z.min_l in Hk' by lia.
      replace (remaining - remaining) with 0 in Hk' by lia.
      rewrite page_count_done in Hk' by lia. lia. }
    rewrite Z.min_r in * by lia.
    set (w1 := log (EvYield page) _).
    specialize (IH fuel (offset + 100) (remaining - 100) w1 ltac:(lia) Hk').
    assert (Hs1 : sent w1 = S (sent w)) by reflexivity.
    rewrite Hs1 in IH.
    destruct IH as (Hres & Hsent & Htrace).
    { intros i Hi. replace (S (sent w) + i)%nat with (sent w + S i)%nat by lia.
      apply Hpages. lia. }
    { replace (S (sent w) + k)%nat with (sent w + S k)%nat by lia. exact Hfail. }
    replace (S (sent w) + k)%nat with (sent w + S k)%nat in Hres by lia.
    split; [exact Hres|]. split; [rewrite Hsent; lia|].
    rewrite Htrace. subst w1. simpl trace.
    rewrite <- !app_assoc. f_equal. simpl.
    rewrite Z.sub_0_r, Z.add_0_r, Nat.add_0_r, Hpage. simpl.
    rewrite (Z.min_r remaining 100) by lia.
    f_equal. f_equal. rewrite flat_map_seq_shift. f_equal.
    + apply flat_map_ext. intros i. unfold page_events, transactions_request. simpl.
      replace (remaining - 100 - 100 * Z.of_nat i)
        with (remaining - 100 * Z.of_nat (S i)) by lia.
      replace (offset + 100 + 100 * Z.of_nat i)
        with (offset + 100 * Z.of_nat (S i)) by lia.
      replace (S (sent w + i))%nat with (sent w + S i)%nat by lia.
      reflexivity.
    + unfold transactions_request. simpl.
      replace (remaining - 100 - 100 * Z.of_nat k)
        with (remaining - 100 * Z.of_nat (S k)) by lia.
      replace (offset + 100 + 100 * Z.of_nat k)
        with (offset + 100 * Z.of_nat (S k)) by lia.
      reflexivity.
Qed.

Lemma transactions_loop_within (fuel : nat) :
  forall (offset remaining : Z) (w : World),
    exists evs,
      trace (snd (transactions_loop transport fuel offset remaining w))
        = (trace w ++ evs)%list /\
      Forall (page_within offset (offset + remaining)) (requests_of evs).
Proof.
  induction fuel as [|fuel IH]; intros offset remaining w; simpl;
    destruct (remaining >? 0) eqn:Erem;
    try (exists []; split; [now rewrite app_nil_r | constructor]).
  apply Z.gtb_lt in Erem.
  assert (Hfirst : page_within offset (offset + remaining)
                     (transactions_request (Z.min remaining 100) offset w)).
  { exists (Z.min remaining 100), offset.
    rewrite page_params_request. split; [reflexivity|]. lia. }
  unfold bind. rewrite exchange_unfold.
  destruct (exchange_result _ _ _) as [page|e].
  - set (w1 := log (EvYield page) _).
    destruct (IH (offset + Z.min remaining 100) (remaining - Z.min remaining 100) w1)
      as (evs & Htrace & Hwithin).
    exists ([EvRequest (transactions_request (Z.min remaining 100) offset w);
             EvYield page] ++ evs)%list.
    split; [rewrite Htrace; subst w1; simpl; now rewrite <- !app_assoc|].
    simpl. constructor; [exact Hfirst|].
    eapply Forall_impl; [|exact Hwithin].
    intros q (batch & off & Hq & Hb & Hlo & Hhi).
    exists batch, off. split; [exact Hq|]. lia.
  - exists [EvRequest (transactions_request (Z.min remaining 100) offset w)].
    split; [reflexivity|]. simpl. auto.
Qed.

End PaginationFailure.

(** X12.  When the pages before page [k] come back and the request for
    page [k] does not, [get_transactions] has handed out exactly those [k]
    pages, raises what that request raises and sends nothing more: the
    failure ends the sequence, and what was handed out stays handed out. *)
Theorem pagination_stops_at_failure (transport : nat -> outcome) (limit : Z)
    (w : World) (k : nat) :
  (k < page_count limit)%nat ->
  (forall i, (i < k)%nat ->
             exists page, page_of (transport (sent w + i)%nat) = Some page) ->
  page_of (transport (sent w + k)%nat) = None ->
  (exists e,
     fst (get_transactions transport limit w) = Raised e /\
     exchange_result (transport (sent w + k)%nat) "Request timed out" (clock w)
       = Raised e) /\
  sent (snd (get_transactions transport limit w)) = (sent w + S k)%nat /\
  pages_of (trace (snd (get_transactions transport limit w)))
    = (pages_of (trace w) ++
       map (fun i => default JNull (page_of (transport (sent w + i)%nat))) (seq 0 k))%list.
Proof.
  intros Hk Hpages Hfail. unfold get_transactions.
  destruct (transactions_loop_stops transport k (Z.to_nat limit) 0 limit w
              ltac:(lia) Hk Hpages Hfail) as (Hres & Hsent & Htrace).
  destruct (no_page_raises _ "Request timed out" (clock w) Hfail) as [e He].
  rewrite He in Hres.
  split; [eauto|]. split; [exact Hsent|].
  rewrite Htrace.
  assert (Happ : forall t1 t2, pages_of (t1 ++ t2) = (pages_of t1 ++ pages_of t2)%list).
  { induction t1 as [|ev t1 IH]; intros t2; simpl; [reflexivity|].
    destruct ev; simpl; now rewrite ?IH. }
  rewrite !Happ. simpl. rewrite app_nil_r. f_equal.
  generalize (seq 0 k). induction l as [|i l IH]; simpl; [reflexivity|].
  now rewrite IH.
Qed.

Lemma pagination_stops_at_failure_witness :
  sent (snd (get_transactions
               (Samples.replay [Responded (Samples.ok (JArr []))] (Failed Timeout))
               250 Scenarios.fresh_world))
    = 2%nat /\
  pages_of (trace (snd (get_transactions
                          (Samples.replay [Responded (Samples.ok (JArr []))]
                                          (Failed Timeout))
                          250 Scenarios.fresh_world)))
    = [JArr []].
Proof.
  assert (Hpages : forall i, (i < 1)%nat ->
            exists page,
              page_of (Samples.replay [Responded (Samples.ok (JArr []))] (Failed Timeout)
                                      (sent Scenarios.fresh_world + i)%nat) = Some page).
  { intros i Hi. assert (i = 0%nat) as -> by lia. exists (JArr []). reflexivity. }
  destruct (pagination_stops_at_failure
              (Samples.replay [Responded (Samples.ok (JArr []))] (Failed Timeout))
              250 Scenarios.fresh_world 1 ltac:(vm_compute; lia) Hpages eq_refl)
    as (_ & Hsent & Hpg).
  split; [exact Hsent | exact Hpg].
Defined.

(** X13.  Whatever the transport does, every request [get_transactions]
    sends asks for between 1 and 100 items at an offset that is not
    negative, and never for an item beyond the limit; with a limit of 0 or
    less it sends nothing at all and ends at once. *)
Theorem pagination_within_limit (transport : nat -> outcome) (limit : Z) (w : World) :
  (exists evs,
     trace (snd (get_transactions transport limit w)) = (trace w ++ evs)%list /\
     Forall (page_within 0 limit) (requests_of evs)) /\
  (limit <= 0 -> get_transactions transport limit w = (Returned true, w)).
Proof.
  split.
  - exact (transactions_loop_within transport (Z.to_nat limit) 0 limit w).
  - intros H. unfold get_transactions.
    replace (Z.to_nat limit) with 0%nat by lia. simpl.
    replace (limit >? 0) with false
      by (symmetry; rewrite Z.gtb_ltb; apply Z.ltb_ge; lia).
    reflexivity.
Qed.

Lemma pagination_within_limit_witness :
  get_transactions Scenarios.always_ok (-5) Scenarios.stale_world
    = (Returned true, Scenarios.stale_world).
Proof.
  destruct (pagination_within_limit Scenarios.always_ok (-5) Scenarios.stale_world)
    as [_ H].
  apply H. lia.
Defined.

(** ** Parsing the answers *)

Section ParsingFacts.

Variable transport : nat -> outcome.
Variable read_float : float_reader.

Lemma exchange_then_parse_result {A} (q : request) (msg : string)
    (parse : json -> result A) (w : World) (j : json) :
  page_of (transport (sent w)) = Some j ->
  fst (bind (exchange transport q msg) (fun j => lift (parse j)) w) = parse j.
Proof.
  intros H. unfold bind, lift. rewrite exchange_unfold.
  now rewrite (page_exchange _ _ _ _ H).
Qed.

Lemma parse_each_length (items : list json) :
  forall objs, parse_each read_float items = Returned objs ->
               List.length objs = List.length items.
Proof.
  induction items as [|p items IH]; simpl; intros objs H.
  - now injection H as <-.
  - destruct (_parse_position read_float p) as [o|e]; simpl in H; [|discriminate].
    destruct (parse_each read_float items) as [os|e]; simpl in H; [|discriminate].
    injection H as <-. simpl. now rewrite (IH os).
Qed.

Lemma parse_each_lookup (items : list json) :
  forall objs i item,
    parse_each read_float items = Returned objs ->
    items !! i = Some item ->
    exists obj, objs !! i = Some obj /\ _parse_position read_float item = Returned obj.
Proof.
  induction items as [|p items IH]; simpl; intros objs i item H Hi; [destruct i; discriminate|].
  destruct (_parse_position read_float p) as [o|e] eqn:Ep; simpl in H; [|discriminate].
  destruct (parse_each read_float items) as [os|e]; simpl in H; [|discriminate].
  injection H as <-. destruct i as [|i]; simpl in *.
  - injection Hi as <-. eauto.
  - eapply IH; eauto.
Qed.

Lemma parse_each_fails (items : list json) :
  forall i item e,
    items !! i = Some item ->
    _parse_position read_float item = Raised e ->
    exists e', parse_each read_float items = Raised e'.
Proof.
  induction items as [|p items IH]; simpl; intros i item e Hi He; [destruct i; discriminate|].
  destruct i as [|i]; simpl in Hi.
  - injection Hi as ->. rewrite He. simpl. eauto.
  - destruct (_parse_position read_float p) as [o|e0]; simpl; [|eauto].
    destruct (IH i item e Hi He) as [e' ->]. simpl. eauto.
Qed.

End ParsingFacts.

(** X14.  [cancel_order] sends one DELETE for the order and, when the
    answer is a dict, returns whether its [status] entry is the text
    "canceled": a missing entry, another text or a value that is not text
    all give [False].  An answer that is not a dict raises
    [AttributeError]. *)
Theorem cancel_order_result (transport : nat -> outcome) (order_id : string)
    (w : World) (j : json) :
  page_of (transport (sent w)) = Some j ->
  trace (snd (cancel_order transport order_id w))
    = (trace w ++ [EvRequest (simple_request DELETE ("/orders/" ++ order_id) w)])%list /\
  fst (cancel_order transport order_id w)
    = match j with
      | JObj fields =>
          Returned match dict_get "status" fields with
                   | Some (JStr s) => String.eqb "canceled" s
                   | _ => false
                   end
      | _ => Raised (foreign_exc AttributeError)
      end.
Proof.
  intros Hj. unfold cancel_order. split.
  - rewrite exchange_then_parse. now rewrite exchange_unfold.
  - rewrite (exchange_then_parse_result _ _ _ _ _ j Hj).
    destruct j as [| | | | |fields]; try reflexivity. simpl.
    destruct (dict_get "status" fields) as [[]|]; reflexivity.
Qed.

Lemma cancel_order_result_witness :
  fst (cancel_order (fun _ => Responded (Samples.ok (JObj [("status", JStr "canceled")])))
                    "61e69015" Scenarios.fresh_world)
    = Returned true /\
  fst (cancel_order (fun _ => Responded (Samples.ok (JObj [("id", JStr "61e69015")])))
                    "61e69015" Scenarios.fresh_world)
    = Returned false.
Proof.
  split.
  - destruct (cancel_order_result
                (fun _ => Responded (Samples.ok (JObj [("status", JStr "canceled")])))
                "61e69015" Scenarios.fresh_world _ eq_refl) as [_ H]. exact H.
  - destruct (cancel_order_result
                (fun _ => Responded (Samples.ok (JObj [("id", JStr "61e69015")])))
                "61e69015" Scenarios.fresh_world _ eq_refl) as [_ H]. exact H.
Defined.

(** X15.  [get_asset] never fails on an answer that is a dict: it returns
    an asset whose symbol and exchange are the entries of the dict, or
    [None] when they are missing, and whose three flags are the entries
    or [False] when they are missing. *)
Theorem get_asset_total_on_dicts (transport : nat -> outcome) (symbol : string)
    (w : World) (fields : list (string * json)) :
  answers_dict transport w fields ->
  fst (get_asset transport symbol w)
    = Returned (mkAsset (default JNull (dict_get "symbol" fields))
                        (default JNull (dict_get "exchange" fields))
                        (default (JBool false) (dict_get "tradable" fields))
                        (default (JBool false) (dict_get "marginable" fields))
                        (default (JBool false) (dict_get "fractionable" fields))) /\
  trace (snd (get_asset transport symbol w))
    = (trace w ++ [EvRequest (simple_request GET ("/assets/" ++ symbol) w)])%list.
Proof.
  intros H. unfold get_asset. split.
  - now rewrite (exchange_then_parse_result _ _ _ _ _ _ H).
  - rewrite exchange_then_parse. now rewrite exchange_unfold.
Qed.

Lemma get_asset_total_on_dicts_witness :
  fst (get_asset (fun _ => Responded (Samples.ok (JObj [("symbol", JStr "AAPL")])))
                 "AAPL" Scenarios.fresh_world)
    = Returned (mkAsset (JStr "AAPL") JNull (JBool false) (JBool false) (JBool false)).
Proof.
  destruct (get_asset_total_on_dicts
              (fun _ => Responded (Samples.ok (JObj [("symbol", JStr "AAPL")])))
              "AAPL" Scenarios.fresh_world [("symbol", JStr "AAPL")] eq_refl)
    as [H _].
  exact H.
Defined.

(** X16.  An accepted order is parsed after it has been sent.  When the
    answer is a dict, [place_order] returns an order exactly when [float]
    accepts its [qty] and [filled_qty] entries, the number 0 standing in
    for a missing entry; otherwise it raises, with the order already
    placed.  In particular an answer whose [qty] is null, as for an order
    given by [notional], raises [TypeError]; and an answer with neither
    entry gives an order whose two quantities are what [float] makes of
    0. *)
Theorem place_order_parses_quantities (transport : nat -> outcome)
    (read_float : float_reader) (a : order_args) (w : World)
    (fields : list (string * json)) :
  answers_dict transport w fields ->
  sent (snd (place_order transport read_float a w)) = S (sent w) /\
  ((exists order, fst (place_order transport read_float a w) = Returned order) <->
   floatable read_float (default (JNum (Qc_of_Z 0)) (dict_get "qty" fields)) /\
   floatable read_float (default (JNum (Qc_of_Z 0)) (dict_get "filled_qty" fields))) /\
  (dict_get "qty" fields = Some JNull ->
   fst (place_order transport read_float a w) = Raised (foreign_exc TypeError)) /\
  (dict_get "qty" fields = None -> dict_get "filled_qty" fields = None ->
   forall zero, float_of_number read_float (Qc_of_Z 0) = Some zero ->
   exists order,
     fst (place_order transport read_float a w) = Returned order /\
     order_qty order = zero /\ order_filled_qty order = zero).
Proof.
  intros H. split; [now rewrite place_order_unfold|].
  unfold place_order. rewrite (exchange_then_parse_result _ _ _ _ _ _ H).
  unfold _parse_order, get_float, floatable. simpl.
  split; [|split].
  - destruct (py_float read_float (default (JNum (Qc_of_Z 0)) (dict_get "qty" fields)))
      as [q|e]; simpl.
    + destruct (py_float read_float
                  (default (JNum (Qc_of_Z 0)) (dict_get "filled_qty" fields)))
        as [fq|e]; simpl.
      * split; eauto.
      * split; [intros [order Ho]; discriminate Ho | intros [_ [q' Hq']]; discriminate Hq'].
    + split; [intros [order Ho]; discriminate Ho | intros [[q' Hq'] _]; discriminate Hq'].
  - intros ->. reflexivity.
  - intros -> -> zero Hzero. simpl. rewrite Hzero. simpl. eauto.
Qed.

Lemma place_order_parses_quantities_witness :
  fst (place_order (fun _ => Responded (Samples.ok (JObj [("id", JStr "o1"); ("qty", JNull)])))
                   Samples.no_floats Samples.both_qty_and_notional Scenarios.fresh_world)
    = Raised (foreign_exc TypeError).
Proof.
  destruct (place_order_parses_quantities
              (fun _ => Responded (Samples.ok (JObj [("id", JStr "o1"); ("qty", JNull)])))
              Samples.no_floats Samples.both_qty_and_notional Scenarios.fresh_world
              [("id", JStr "o1"); ("qty", JNull)] eq_refl) as (_ & _ & H & _).
  exact (H eq_refl).
Defined.

(** X17.  [_parse_positions] on a list is all or nothing: when it returns,
    it returns as many positions as the list has items, the [i]-th being
    the parse of the [i]-th item; and one item that does not parse makes
    the whole call raise.  An empty list gives no positions. *)
Theorem parse_positions_all_or_nothing (read_float : float_reader)
    (items : list json) :
  (forall objs, _parse_positions read_float (JArr items) = Returned objs ->
     List.length objs = List.length items /\
     forall i item, items !! i = Some item ->
       exists obj, objs !! i = Some obj /\
                   _parse_position read_float item = Returned obj) /\
  (forall i item e, items !! i = Some item ->
     _parse_position read_float item = Raised e ->
     exists e', _parse_positions read_float (JArr items) = Raised e') /\
  (items = [] -> _parse_positions read_float (JArr items) = Returned []).
Proof.
  simpl. split; [|split].
  - intros objs H. split; [exact (parse_each_length read_float items objs H)|].
    intros i item Hi. eapply parse_each_lookup; eauto.
  - intros i item e Hi He. eapply parse_each_fails; eauto.
  - intros ->. reflexivity.
Qed.

Lemma parse_positions_all_or_nothing_witness :
  exists e', _parse_positions Samples.no_floats
               (JArr [JObj [("symbol", JStr "AAPL")]; JStr "TSLA"]) = Raised e'.
Proof.
  destruct (parse_positions_all_or_nothing Samples.no_floats
              [JObj [("symbol", JStr "AAPL")]; JStr "TSLA"]) as (_ & H & _).
  exact (H 1%nat (JStr "TSLA") (foreign_exc AttributeError) eq_refl eq_refl).
Defined.

(** X19.  [get_order_status] on an answer that is a dict returns a status
    exactly when [float] accepts the [filled_qty] entry, the number 0
    standing in for a missing entry, and raises what [float] raises
    otherwise; the status holds what [float] returns, and its other
    fields are the entries of the dict as they are, or [None] when
    missing, so that [filled_avg_price] stays a text or null. *)
Theorem order_status_parse (transport : nat -> outcome) (read_float : float_reader)
    (order_id : string) (w : World) (fields : list (string * json)) :
  answers_dict transport w fields ->
  fst (get_order_status transport read_float order_id w)
    = match py_float read_float
              (default (JNum (Qc_of_Z 0)) (dict_get "filled_qty" fields)) with
      | Returned filled_qty =>
          Returned (mkOrderStatus (default JNull (dict_get "id" fields))
                                  (default JNull (dict_get "symbol" fields))
                                  (default JNull (dict_get "status" fields))
                                  filled_qty
                                  (default JNull (dict_get "filled_avg_price" fields)))
      | Raised e => Raised e
      end /\
  trace (snd (get_order_status transport read_float order_id w))
    = (trace w ++ [EvRequest (simple_request GET ("/orders/" ++ order_id) w)])%list.
Proof.
  intros H. unfold get_order_status. split.
  - rewrite (exchange_then_parse_result _ _ _ _ _ _ H).
    unfold _parse_order_status, get_float. simpl.
    destruct (py_float read_float _); reflexivity.
  - rewrite exchange_then_parse. now rewrite exchange_unfold.
Qed.

Lemma order_status_parse_witness :
  fst (get_order_status
         (fun _ => Responded (Samples.ok (JObj [("id", JStr "o1");
                                                ("status", JStr "partially_filled");
                                                ("filled_qty", JNum (Qc_of_Z 5))])))
         Samples.no_floats "o1" Scenarios.fresh_world)
    = Returned (mkOrderStatus (JStr "o1") JNull (JStr "partially_filled")
                              (FNum (Qc_of_Z 5)) JNull).
Proof.
  destruct (order_status_parse
              (fun _ => Responded (Samples.ok (JObj [("id", JStr "o1");
                                                     ("status", JStr "partially_filled");
                                                     ("filled_qty", JNum (Qc_of_Z 5))])))
              Samples.no_floats "o1" Scenarios.fresh_world
              [("id", JStr "o1"); ("status", JStr "partially_filled");
               ("filled_qty", JNum (Qc_of_Z 5))] eq_refl) as [H _].
  exact H.
Defined.

(** X20.  Only the statuses 400 to 599 are failures.  A response with any
    other status is read as a success whatever the status is, and when
    its body is not JSON the operation raises an exception that is not a
    broker error, after its one request. *)
Theorem unparsable_success_escapes (transport : nat -> outcome)
    (read_float : float_reader) (op : operation) (w : World) (r : response) :
  issues_request op = true ->
  transport (sent w) = Responded r ->
  (status_code r < 400 \/ 600 <= status_code r) ->
  resp_json r = None ->
  operation_failure transport read_float op w = Some (foreign_exc JSONDecodeError) /\
  isinstance (foreign_exc JSONDecodeError) BrokerError = false /\
  sent (run_operation transport read_float op w) = S (sent w).
Proof.
  intros Hop Hr Hstatus Hbody.
  assert (Hok : is_http_error r = false).
  { unfold is_http_error. apply andb_false_iff.
    destruct Hstatus; [left; apply Z.leb_gt | right; apply Z.ltb_ge]; lia. }
  assert (Hone : forall msg, exchange_result (transport (sent w)) msg (clock w)
                             = Raised (foreign_exc JSONDecodeError)).
  { intros msg. rewrite Hr. simpl. now rewrite Hok, Hbody. }
  split; [|split; [reflexivity|]].
  - destruct op; simpl in *;
      unfold get_account, get_positions, get_asset, place_order,
             get_order_status, cancel_order, get_transactions.
    1,2,4,5,6,7:
      first [ rewrite exchange_unfold; simpl; now rewrite Hone
            | erewrite exchange_then_parse_raises; [reflexivity | apply Hone] ].
    apply Z.ltb_lt in Hop.
    destruct (Z.to_nat limit) as [|fuel] eqn:Efuel; [lia|]. simpl.
    replace (limit >? 0) with true by (symmetry; apply Z.gtb_lt; lia).
    unfold bind. rewrite exchange_unfold. now rewrite Hone.
  - destruct op; simpl in *;
      unfold get_account, get_positions, get_asset, place_order,
             get_order_status, cancel_order, get_transactions;
      rewrite ?exchange_then_parse; try (now rewrite exchange_unfold).
    apply Z.ltb_lt in Hop.
    destruct (Z.to_nat limit) as [|fuel] eqn:Efuel; [lia|]. simpl.
    replace (limit >? 0) with true by (symmetry; apply Z.gtb_lt; lia).
    unfold bind. rewrite exchange_unfold. now rewrite Hone.
Qed.

Lemma unparsable_success_escapes_witness :
  operation_failure (fun _ => Responded (mkResponse 204 None ∅ "")) Samples.no_floats
                    (OpCancelOrder "o1") Scenarios.fresh_world
    = Some (foreign_exc JSONDecodeError).
Proof.
  destruct (unparsable_success_escapes
              (fun _ => Responded (mkResponse 204 None ∅ "")) Samples.no_floats
              (OpCancelOrder "o1") Scenarios.fresh_world (mkResponse 204 None ∅ "")
              eq_refl eq_refl ltac:(left; simpl; lia) eq_refl) as (H & _).
  exact H.
Defined.

(** ** The keys of an order payload *)

(** X18.  An order payload always holds [symbol], [side], [type] and
    [time_in_force] with the values given, exactly one of [qty] and
    [notional], and [limit_price] or not; it holds no other key. *)
Theorem order_payload_keys (a : order_args) :
  dom (order_payload a)
    = ({["symbol"; "side"; "type"; "time_in_force"]}
       ∪ match arg_notional a with Some _ => {["notional"]} | None => {["qty"]} end
       ∪ match arg_limit_price a with Some _ => {["limit_price"]} | None => ∅ end
       : gset string) /\
  order_payload a !! "symbol" = Some (PStr (arg_symbol a)) /\
  order_payload a !! "side" = Some (PStr (arg_side a)) /\
  order_payload a !! "type" = Some (PStr (arg_type a)) /\
  order_payload a !! "time_in_force" = Some (PStr (arg_time_in_force a)) /\
  (order_payload a !! "qty" = None <-> order_payload a !! "notional" <> None).
Proof.
  unfold order_payload.
  destruct (arg_notional a) as [n|], (arg_limit_price a) as [p|]; simpl.
  all: split; [rewrite ?dom_delete_L, ?dom_insert_L, dom_empty_L; set_solver|].
  all: do 4 (split; [by simplify_map_eq|]).
  all: simplify_map_eq; split; intros H; congruence.
Qed.
